(** * Batch re-encoding of .ogg files: a model of the two driver scripts

    The repository holds two command line scripts, [fix_ogg_files.py]
    (one external encoder run per file) and [fix_ogg_xray.py] (decode with
    one tool, encode with another).  Both walk a directory, re-encode every
    [*.ogg] file through external programs and replace the original.

    The scripts are embedded as functions in a state and exception monad
    over a file store.  The external programs and the I/O faults of the
    operating system are not part of the repository: they are an oracle
    ([env]) that every function takes as its first argument.

    What the model of the operating system covers:
    - the store maps the paths of regular files to their bytes and keeps the
      set of directories; a candidate of the per-file procedure and its
      temporary and backup siblings are regular files or absent;
    - [unlink], [rename] and [copy2] raise when their source is absent; in
      the backup and replace steps each of them can also fail by a fault
      that the environment injects, a copy also after part of the bytes
      were written; the clean-up [unlink] of a temporary file that is there
      does not fail;
    - an external program writes nothing but its output file;
    - paths are compared by their components, case-sensitively; [pathlib]'s
      suffix is the part of the final component from its last dot. *)

From Stdlib Require Import Strings.Byte Strings.Ascii.
From stdpp Require Import gmap strings list fin_maps.

Open Scope string_scope.

(** ** Python string operations used by the scripts *)

Module Str.

(** [s.startswith(pre)] *)
Fixpoint startswith (s pre : string) : bool :=
  match pre, s with
  | EmptyString, _ => true
  | String a p, String b t => Ascii.eqb a b && startswith t p
  | String _ _, EmptyString => false
  end.

(** [s.endswith(suf)] *)
Fixpoint endswith (s suf : string) : bool :=
  String.eqb s suf ||
  match s with
  | EmptyString => false
  | String _ t => endswith t suf
  end.

(** [sub in s] *)
Fixpoint contains (sub s : string) : bool :=
  startswith s sub ||
  match s with
  | EmptyString => false
  | String _ t => contains sub t
  end.

(** [s.rfind(c)], with [None] for Python's [-1]. *)
Fixpoint rfind (c : ascii) (s : string) : option nat :=
  match s with
  | EmptyString => None
  | String a t =>
      match rfind c t with
      | Some i => Some (S i)
      | None => if Ascii.eqb a c then Some 0 else None
      end
  end.

(** [s[:n]] and [s[n:]] *)
Fixpoint take (n : nat) (s : string) : string :=
  match n, s with
  | S n', String a t => String a (take n' t)
  | _, _ => EmptyString
  end.

Fixpoint drop (n : nat) (s : string) : string :=
  match n, s with
  | S n', String _ t => drop n' t
  | _, _ => s
  end.

(** [s.split("/")] *)
Fixpoint split_slash (s : string) : list string :=
  match s with
  | EmptyString => [EmptyString]
  | String c t =>
      if Ascii.eqb c "/" then EmptyString :: split_slash t
      else match split_slash t with
           | [] => [String c EmptyString]
           | h :: r => String c h :: r
           end
  end.

End Str.

(** ** pathlib: pure paths

    A path is the list of its components ([PurePath.parts]); an absolute
    path starts with the component ["/"]. The suffix functions follow
    [pathlib]'s definition by the last dot of the final component. *)

Definition path := list string.

Module PurePath.

(** [Path(s)]: components split at ["/"], empty and ["."] ones dropped. *)
Definition Path (s : string) : path :=
  ((if Str.startswith s "/" then ["/"] else []) ++
   List.filter (fun c => negb (String.eqb c "") && negb (String.eqb c "."))
               (Str.split_slash s))%list.

(** [str(p)] *)
Definition str (p : path) : string :=
  match p with
  | [] => "."
  | r :: rest => if String.eqb r "/" then "/" +:+ String.concat "/" rest
                 else String.concat "/" p
  end.

(** [p.name] *)
Definition name (p : path) : string :=
  match p with
  | [r] => if String.eqb r "/" then "" else r
  | _ => default "" (last p)
  end.

(** [p.parent] (for a path with a name) *)
Definition parent (p : path) : path := removelast p.

(** [p.suffix] on the final component *)
Definition suffix (nm : string) : string :=
  match Str.rfind "." nm with
  | Some i =>
      if ((0 <? i) && (i <? String.length nm - 1))%nat then Str.drop i nm else ""
  | None => ""
  end.

(** The final component of [p.with_suffix(suf)]. *)
Definition name_with_suffix (nm suf : string) : string :=
  let old_suffix := suffix nm in
  if String.eqb old_suffix "" then nm +:+ suf
  else Str.take (String.length nm - String.length old_suffix)%nat nm +:+ suf.

(** [p.with_suffix(suf)]; [None] is the [ValueError] for an empty name. *)
Definition with_suffix (p : path) (suf : string) : option path :=
  if String.eqb (name p) "" then None
  else Some (parent p ++ [name_with_suffix (name p) suf])%list.

(** [p.relative_to(d)]; [None] is the [ValueError] when [d] is not a
    leading part of [p]. *)
Definition relative_to (p d : path) : option path :=
  if bool_decide (List.firstn (length d) p = d) then Some (List.skipn (length d) p)
  else None.

End PurePath.

(** ** The process state: file store and terminal output *)

Definition bytes := list byte.

(** One constructor per [print] of the scripts. *)
Inductive line :=
| Rule (c : string)                       (* "=" * 50, "-" * 50 *)
| Text (s : string)                       (* a fixed message *)
| MsgFileNotFound                         (* [ERROR] File not found *)
| MsgToolFailed (tool : string)           (* [ERROR] ffmpeg failed / oggenc failed *)
| MsgError (e : string)                   (* [ERROR] {e} *)
| MsgDirNotFound (d : path)               (* Directory not found: {directory} *)
| MsgNoFiles (d : path)                   (* No .ogg files found in {directory} *)
| MsgFound (n : nat)                      (* Found {n} .ogg file(s) to process *)
| MsgProcessing (i n : nat) (rel : string)(* [{i}/{n}] Processing: {rel_path} *)
| MsgOk                                   (* [OK] Re-encoded successfully *)
| MsgComplete (success failed : nat)      (* Complete! Success: .., Failed: .. *)
| MsgTarget (d : string)                  (* Target directory: .. *)
| MsgRecursive (r : bool).                (* Recursive: .. *)

(** Regular files by path, the set of directories, and what was printed.
    The per-file procedure works on the paths of regular files (a candidate
    found by discovery and its temporary and backup siblings); directories
    are what [process_directory] tests and traverses. *)
Record state := State {
  dirs : gset path;
  files : gmap path bytes;
  out : list line
}.

Definition set_files (f : gmap path bytes → gmap path bytes) (s : state) : state :=
  State (dirs s) (f (files s)) (out s).

(** ** Exceptions and the monad *)

Inductive exn :=
| ValueError
| FileNotFoundError
| OSError            (* an I/O fault: permissions, disk full, ... *)
| SystemExit (code : Z).

Definition exn_text (e : exn) : string :=
  match e with
  | ValueError => "ValueError"
  | FileNotFoundError => "FileNotFoundError"
  | OSError => "OSError"
  | SystemExit _ => "SystemExit"
  end.

(** [except Exception] does not catch [SystemExit]. *)
Definition is_Exception (e : exn) : bool :=
  match e with SystemExit _ => false | _ => true end.

Inductive result (A : Type) :=
| Ok (a : A)
| Raise (e : exn).
Arguments Ok {A} a.
Arguments Raise {A} e.

Definition M (A : Type) : Type := state → result A * state.

Definition ret {A} (a : A) : M A := fun s => (Ok a, s).

Definition bind {A B} (m : M A) (k : A → M B) : M B := fun s =>
  match m s with
  | (Ok a, s') => k a s'
  | (Raise e, s') => (Raise e, s')
  end.

Definition raise {A} (e : exn) : M A := fun s => (Raise e, s).

(** [try: body / except Exception as e: handler(e)] *)
Definition try_except {A} (body : M A) (handler : exn → M A) : M A := fun s =>
  match body s with
  | (Ok a, s') => (Ok a, s')
  | (Raise e, s') => if is_Exception e then handler e s' else (Raise e, s')
  end.

(** [try: body / except: handler] (a bare [except] catches everything) *)
Definition try_except_all {A} (body : M A) (handler : M A) : M A := fun s =>
  match body s with
  | (Ok a, s') => (Ok a, s')
  | (Raise _, s') => handler s'
  end.

Notation "'let*' x ':=' m 'in' k" := (bind m (fun x => k))
  (at level 10, x name, m at level 100, k at level 200).
Notation "m >> k" := (bind m (fun _ => k)) (at level 65, right associativity).

Definition when (b : bool) (m : M unit) : M unit := if b then m else ret tt.

Definition print (l : line) : M unit := fun s =>
  (Ok tt, State (dirs s) (files s) (out s ++ [l])%list).

Definition of_option {A} (o : option A) (e : exn) : M A :=
  match o with Some a => ret a | None => raise e end.

(** ** File-system operations

    Every operation that the scripts run in the backup and replace steps
    takes the fault the environment injects at that call. *)

Inductive copy_fault :=
| CopyOk
| CopyRefused               (* the destination cannot be opened *)
| CopyTruncated (n : nat).  (* the write fails after [n] bytes *)

(** [p.exists()] for the path of a regular file *)
Definition exists_ (p : path) : M bool := fun s =>
  (Ok (bool_decide (is_Some (files s !! p))), s).

(** [d.exists()] for the target directory: true for a directory, and for a
    regular file too. *)
Definition dir_present (s : state) (d : path) : bool :=
  bool_decide (d ∈ dirs s) || bool_decide (is_Some (files s !! d)).

Definition dir_exists (d : path) : M bool := fun s => (Ok (dir_present s d), s).

(** [p.unlink()] *)
Definition unlink (fault : bool) (p : path) : M unit := fun s =>
  if fault then (Raise OSError, s)
  else match files s !! p with
       | Some _ => (Ok tt, set_files (delete p) s)
       | None => (Raise FileNotFoundError, s)
       end.

(** [src.rename(dst)] *)
Definition rename (fault : bool) (src dst : path) : M unit := fun s =>
  if fault then (Raise OSError, s)
  else match files s !! src with
       | Some b => (Ok tt, set_files (fun m => <[dst := b]> (delete src m)) s)
       | None => (Raise FileNotFoundError, s)
       end.

(** Writing [b] to [dst], as [shutil.copy2] does after it has opened the
    source: the destination is truncated and filled. *)
Definition write_file (fault : copy_fault) (b : bytes) (dst : path) : M unit := fun s =>
  match fault with
  | CopyOk => (Ok tt, set_files (insert dst b) s)
  | CopyRefused => (Raise OSError, s)
  | CopyTruncated n => (Raise OSError, set_files (insert dst (List.firstn n b)) s)
  end.

(** [shutil.copy2(src, dst)] *)
Definition copy2 (fault : copy_fault) (src dst : path) : M unit := fun s =>
  match files s !! src with
  | Some b => write_file fault b dst s
  | None => (Raise FileNotFoundError, s)
  end.

(** ** The environment: external programs and injected faults

    [ffmpeg] and [oggenc] are programs outside the repository.  A run is
    described by its exit status and by what it leaves at its output path
    ([None]: nothing written).  The availability probes and the faults of
    the backup and replace steps are part of the same oracle; faults are
    chosen per processed file. *)

Inductive probe :=
| NotInstalled              (* [FileNotFoundError] from [subprocess.run] *)
| Exited (rc : Z).

Record run_result := RunResult {
  returncode : Z;
  output : option bytes
}.

Record io_faults := IoFaults {
  backup_unlink_fails : bool;     (* [backup_path.unlink()] *)
  backup_copy : copy_fault;       (* [shutil.copy2(input_path, backup_path)] *)
  original_unlink_fails : bool;   (* [input_path.unlink()] *)
  rename_fails : bool;            (* [temp_path.rename(input_path)] *)
  replace_copy : copy_fault       (* [shutil.copy2(temp_ogg, input_path)] *)
}.

Definition no_faults : io_faults := IoFaults false CopyOk false false CopyOk.

Record env := Env {
  probe_ffmpeg : probe;
  probe_oggenc : probe;
  ffmpeg_encode : path → bytes → run_result;  (* ffmpeg -y -i f -c:a libvorbis .. f.tmp.ogg *)
  ffmpeg_decode : path → bytes → run_result;  (* ffmpeg -y -i f -ar 44100 temp.wav *)
  oggenc_encode : path → bytes → run_result;  (* oggenc temp.wav -q 6 -o temp.ogg, while f is processed *)
  io : path → io_faults
}.

(** ** Discovery: [glob] and [rglob]

    The store is enumerated in its own fixed order (the order of a real
    directory scan is not specified either); the candidates are the regular
    files.  [tail] is the literal part of a pattern ["*" + tail]: the
    pattern matches the names that end with it. *)

Definition listing (s : state) : list path := (map_to_list (files s)).*1.

Definition is_child (d p : path) : bool :=
  bool_decide (length p = S (length d) ∧ List.firstn (length d) p = d).

Definition is_below (d p : path) : bool :=
  bool_decide ((length d < length p)%nat ∧ List.firstn (length d) p = d).

Definition fnmatch_star (nm tail : string) : bool := Str.endswith nm tail.

(** [list(d.glob("*" + tail))] *)
Definition glob (d : path) (tail : string) : M (list path) := fun s =>
  (Ok (List.filter (fun p => is_child d p && fnmatch_star (PurePath.name p) tail)
                   (listing s)), s).

(** [list(d.rglob("*" + tail))] *)
Definition rglob (d : path) (tail : string) : M (list path) := fun s =>
  (Ok (List.filter (fun p => is_below d p && fnmatch_star (PurePath.name p) tail)
                   (listing s)), s).

(** The command line, as both [main] functions read it:
    [recursive = "-r" in sys.argv],
    [args = [a for a in sys.argv[1:] if a != "-r"]] and
    [directory = args[0] if args else "."]. *)
Definition argv_recursive (argv : list string) : bool := bool_decide ("-r" ∈ argv).

Definition argv_directory (argv : list string) : string :=
  match List.filter (fun a => negb (String.eqb a "-r")) (tail argv) with
  | a :: _ => a
  | [] => "."
  end.

(** The exit status of the process for a run of [main]. *)
Definition exit_status {A} (r : result A * state) : Z :=
  match fst r with
  | Ok _ => 0
  | Raise (SystemExit c) => c
  | Raise _ => 1
  end.

(** ** [fix_ogg_files.py]: one ffmpeg run per file *)

Module Files.

Definition check_ffmpeg (E : env) : bool :=
  match probe_ffmpeg E with
  | Exited 0 => true      (* [check=True]: a non-zero status raises *)
  | _ => false
  end.

(** [subprocess.run(["ffmpeg", "-y", "-i", input_path, ..., temp_path])] *)
Definition run_ffmpeg (E : env) (input_path temp_path : path) : M run_result := fun s =>
  match files s !! input_path with
  | Some b =>
      let r := ffmpeg_encode E input_path b in
      (Ok r, match output r with
             | Some o => set_files (insert temp_path o) s
             | None => s
             end)
  | None => (Ok (RunResult 1 None), s)
  end.

Definition reencode_ogg (E : env) (input_path : path) (backup : bool) : M bool :=
  let* present := exists_ input_path in
  if negb present then
    print MsgFileNotFound >> ret false
  else
    let* temp_path := of_option (PurePath.with_suffix input_path ".tmp.ogg") ValueError in
    let* backup_path := of_option (PurePath.with_suffix input_path ".ogg.bak") ValueError in
    try_except
      (let* r := run_ffmpeg E input_path temp_path in
       if negb (returncode r =? 0)%Z then
         print (MsgToolFailed "ffmpeg") >>
         (let* left := exists_ temp_path in when left (unlink false temp_path)) >>
         ret false
       else
         when backup
           ((let* old := exists_ backup_path in
             when old (unlink (backup_unlink_fails (io E input_path)) backup_path)) >>
            copy2 (backup_copy (io E input_path)) input_path backup_path) >>
         unlink (original_unlink_fails (io E input_path)) input_path >>
         rename (rename_fails (io E input_path)) temp_path input_path >>
         ret true)
      (fun e =>
         print (MsgError (exn_text e)) >>
         (let* left := exists_ temp_path in when left (unlink false temp_path)) >>
         ret false).

(** The filter of line 97. *)
Definition keep (f : path) : bool :=
  negb (Str.endswith (PurePath.name f) ".bak") &&
  negb (Str.contains ".tmp." (PurePath.name f)).

(** The [for] loop of [process_directory], with its two counters. *)
Fixpoint loop (E : env) (directory : path) (recursive : bool) (n : nat)
    (l : list path) (i success failed : nat) : M (nat * nat) :=
  match l with
  | [] => ret (success, failed)
  | ogg_file :: rest =>
      let* rel_path :=
        (if recursive
         then let* r := of_option (PurePath.relative_to ogg_file directory) ValueError in
              ret (PurePath.str r)
         else ret (PurePath.name ogg_file)) in
      print (MsgProcessing i n rel_path) >>
      let* done_ := reencode_ogg E ogg_file true in
      if done_ then
        print MsgOk >> loop E directory recursive n rest (S i) (S success) failed
      else
        loop E directory recursive n rest (S i) success (S failed)
  end.

(** The Target Set: what discovery hands to the loop. *)
Definition discover (directory : path) (recursive : bool) : M (list path) :=
  let* found := (if recursive then rglob directory ".ogg" else glob directory ".ogg") in
  ret (List.filter keep found).

(** The Target Set of a run in state [s]. *)
Definition target_set (directory : path) (recursive : bool) (s : state) : list path :=
  match fst (discover directory recursive s) with
  | Ok l => l
  | Raise _ => []
  end.

Definition process_directory (E : env) (directory : path) (recursive : bool) : M unit :=
  let* present := dir_exists directory in
  if negb present then
    print (MsgDirNotFound directory) >> ret tt
  else
    let* ogg_files := discover directory recursive in
    match ogg_files with
    | [] => print (MsgNoFiles directory) >> ret tt
    | _ =>
        print (MsgFound (length ogg_files)) >>
        print (Rule "-") >>
        let* counts := loop E directory recursive (length ogg_files) ogg_files 1 0 0 in
        print (Rule "-") >>
        print (MsgComplete (fst counts) (snd counts)) >>
        when (0 <? fst counts)%nat
          (print (Text "Backup files created with .ogg.bak extension") >>
           print (Text "Delete them manually after confirming everything works."))
    end.

Definition main (E : env) (argv : list string) : M unit :=
  print (Rule "=") >>
  print (Text "OGG Re-encoder for X-Ray Engine") >>
  print (Rule "=") >>
  if negb (check_ffmpeg E) then
    print (Text "[ERROR] ffmpeg not found!") >>
    print (Text "Please install ffmpeg and add it to your PATH") >>
    print (Text "Download: https://ffmpeg.org/download.html") >>
    print (Text "Or use: winget install ffmpeg") >>
    raise (SystemExit 1)
  else
    let recursive := argv_recursive argv in
    let directory := argv_directory argv in
    print (MsgTarget directory) >>
    print (MsgRecursive recursive) >>
    print (Text "") >>
    process_directory E (PurePath.Path directory) recursive.

End Files.

(** ** [fix_ogg_xray.py]: decode with ffmpeg, encode with oggenc *)

Module Xray.

Definition installed (p : probe) : bool :=
  match p with
  | NotInstalled => false
  | Exited _ => true           (* [check=False]: any exit status counts *)
  end.

Definition check_tools (E : env) : bool * bool :=
  (installed (probe_ffmpeg E), installed (probe_oggenc E)).

(** The two subprocess runs.  [temp.wav] and [temp.ogg] live in a
    [TemporaryDirectory] private to one call: they are the [output] of
    the runs and are gone when the call returns. *)
Definition run_decode (E : env) (input_path : path) : M run_result := fun s =>
  match files s !! input_path with
  | Some b => (Ok (ffmpeg_decode E input_path b), s)
  | None => (Ok (RunResult 1 None), s)
  end.

Definition run_oggenc (E : env) (input_path : path) (wav : bytes) : M run_result :=
  ret (oggenc_encode E input_path wav).

Definition reencode_ogg (E : env) (input_path : path) (backup : bool) : M bool :=
  let* present := exists_ input_path in
  if negb present then
    print MsgFileNotFound >> ret false
  else
    try_except
      (let* decoded := run_decode E input_path in
       match output decoded with
       | None => print (MsgToolFailed "ffmpeg decode") >> ret false
       | Some wav =>
           let* encoded := run_oggenc E input_path wav in
           match output encoded with
           | None => print (MsgToolFailed "oggenc") >> ret false
           | Some temp_ogg =>
               when backup
                 (let* backup_path :=
                    of_option (PurePath.with_suffix input_path ".ogg.bak") ValueError in
                  let* old := exists_ backup_path in
                  when (negb old)
                    (try_except_all
                       (copy2 (backup_copy (io E input_path)) input_path backup_path)
                       (ret tt))) >>
               write_file (replace_copy (io E input_path)) temp_ogg input_path >>
               ret true
           end
       end)
      (fun e => print (MsgError (exn_text e)) >> ret false).

(** The filter of line 114. *)
Definition keep (f : path) : bool := negb (Str.contains ".bak" (PurePath.str f)).

Fixpoint loop (E : env) (directory : path) (recursive : bool) (n : nat)
    (l : list path) (i success failed : nat) : M (nat * nat) :=
  match l with
  | [] => ret (success, failed)
  | ogg_file :: rest =>
      let* rel_path :=
        (if recursive
         then let* r := of_option (PurePath.relative_to ogg_file directory) ValueError in
              ret (PurePath.str r)
         else ret (PurePath.name ogg_file)) in
      print (MsgProcessing i n rel_path) >>
      let* done_ := reencode_ogg E ogg_file true in
      if done_ then
        print MsgOk >> loop E directory recursive n rest (S i) (S success) failed
      else
        loop E directory recursive n rest (S i) success (S failed)
  end.

Definition discover (directory : path) (recursive : bool) : M (list path) :=
  let* found := (if recursive then rglob directory ".ogg" else glob directory ".ogg") in
  ret (List.filter keep found).

(** The Target Set of a run in state [s]. *)
Definition target_set (directory : path) (recursive : bool) (s : state) : list path :=
  match fst (discover directory recursive s) with
  | Ok l => l
  | Raise _ => []
  end.

Definition process_directory (E : env) (directory : path) (recursive : bool) : M unit :=
  let* present := dir_exists directory in
  if negb present then
    print (MsgDirNotFound directory) >> ret tt
  else
    let* ogg_files := discover directory recursive in
    match ogg_files with
    | [] => print (MsgNoFiles directory) >> ret tt
    | _ =>
        print (MsgFound (length ogg_files)) >>
        print (Rule "-") >>
        let* counts := loop E directory recursive (length ogg_files) ogg_files 1 0 0 in
        print (Rule "-") >>
        print (MsgComplete (fst counts) (snd counts)) >>
        when (0 <? fst counts)%nat
          (print (Text "Backups saved as .ogg.bak files"))
    end.

Definition main (E : env) (argv : list string) : M unit :=
  print (Rule "=") >>
  print (Text "OGG Re-encoder for X-Ray Engine") >>
  print (Text "Uses ffmpeg + oggenc") >>
  print (Rule "=") >>
  let has_ffmpeg := fst (check_tools E) in
  let has_oggenc := snd (check_tools E) in
  when (negb has_ffmpeg) (print (Text "[ERROR] ffmpeg not found!")) >>
  when (negb has_oggenc) (print (Text "[ERROR] oggenc not found!")) >>
  if negb has_ffmpeg || negb has_oggenc then
    raise (SystemExit 1)
  else
    let recursive := argv_recursive argv in
    let directory := argv_directory argv in
    print (MsgTarget directory) >>
    print (MsgRecursive recursive) >>
    process_directory E (PurePath.Path directory) recursive.

End Xray.

(** ** Sample data used by the examples below *)

Definition O1 : bytes := [x4f; x67; x67; x53; x01].      (* an original *)
Definition O2 : bytes := [x4f; x67; x67; x53; x02].      (* another original *)
Definition T1 : bytes := [x4f; x67; x67; x53; xaa; xbb]. (* a transformed file *)
Definition W1 : bytes := [x52; x49; x46; x46].           (* a decoded wav *)
Definition OLD : bytes := [x00; x01].                    (* an older backup *)

(** A healthy environment: both tools installed, every run succeeds with
    output [T1] (the decoder: [W1]), no I/O fault. *)
Definition good_env : env :=
  Env (Exited 0) (Exited 0)
      (fun _ _ => RunResult 0 (Some T1))
      (fun _ _ => RunResult 0 (Some W1))
      (fun _ _ => RunResult 0 (Some T1))
      (fun _ => no_faults).

Definition with_io (E : env) (f : path → io_faults) : env :=
  Env (probe_ffmpeg E) (probe_oggenc E) (ffmpeg_encode E) (ffmpeg_decode E)
      (oggenc_encode E) f.

Definition store (fs : list (path * bytes)) (ds : list path) : state :=
  State (list_to_set ds) (list_to_map fs) [].

Definition with_ffmpeg (E : env) (f : path → bytes → run_result) : env :=
  Env (probe_ffmpeg E) (probe_oggenc E) f (ffmpeg_decode E) (oggenc_encode E) (io E).

Definition with_decode (E : env) (f : path → bytes → run_result) : env :=
  Env (probe_ffmpeg E) (probe_oggenc E) (ffmpeg_encode E) f (oggenc_encode E) (io E).

(** The directory of the example scenario: [a.ogg], [b.ogg], [c.wav]. *)
Definition music : state :=
  store [ (["music"; "a.ogg"], O1); (["music"; "b.ogg"], O2); (["music"; "c.wav"], W1) ]
        [ ["music"] ].

(** The same with a file in a sub-directory. *)
Definition library : state :=
  store [ (["music"; "a.ogg"], O1); (["music"; "live"; "d.ogg"], O2) ]
        [ ["music"]; ["music"; "live"] ].

(** Sub-directories with a left-over temporary file and with old files. *)
Definition archive : state :=
  store [ (["music"; "live"; "x.tmp.ogg"], T1); (["music"; "old.bak"; "d.ogg"], O2) ]
        [ ["music"]; ["music"; "live"]; ["music"; "old.bak"] ].

(** A directory that holds a left-over [x.tmp.ogg]. *)
Definition leftovers : state :=
  store [ (["music"; "a.ogg"], O1); (["music"; "x.tmp.ogg"], T1) ] [ ["music"] ].

(** [a.ogg] beside a temporary file that an interrupted run left. *)
Definition leftovers_a : state :=
  store [ (["music"; "a.ogg"], O1); (["music"; "a.tmp.ogg"], OLD) ] [ ["music"] ].

(** [a.ogg] with a backup from an earlier run. *)
Definition rerun : state :=
  store [ (["music"; "a.ogg"], O1); (["music"; "a.ogg.bak"], OLD) ] [ ["music"] ].

(** Environments that misbehave in one place. *)
Definition env_no_ffmpeg : env :=
  Env NotInstalled (Exited 0) (ffmpeg_encode good_env) (ffmpeg_decode good_env)
      (oggenc_encode good_env) (io good_env).

(* [ffmpeg -version] can be started and exits with status 1 *)
Definition env_probe_fails : env :=
  Env (Exited 1) (Exited 0) (ffmpeg_encode good_env) (ffmpeg_decode good_env)
      (oggenc_encode good_env) (io good_env).

(* ffmpeg fails on [a.ogg] only *)
Definition env_a_fails : env :=
  with_decode
    (with_ffmpeg good_env
       (fun f _ => if bool_decide (f = ["music"; "a.ogg"]) then RunResult 1 None
                   else RunResult 0 (Some T1)))
    (fun f _ => if bool_decide (f = ["music"; "a.ogg"]) then RunResult 1 None
                else RunResult 0 (Some W1)).

(* ffmpeg fails on [b.ogg] only *)
Definition env_b_fails : env :=
  with_decode
    (with_ffmpeg good_env
       (fun f _ => if bool_decide (f = ["music"; "b.ogg"]) then RunResult 1 None
                   else RunResult 0 (Some T1)))
    (fun f _ => if bool_decide (f = ["music"; "b.ogg"]) then RunResult 1 None
                else RunResult 0 (Some W1)).

(* ffmpeg exits with status 0 and writes nothing *)
Definition env_no_output : env := with_ffmpeg good_env (fun _ _ => RunResult 0 None).

(* the decoder exits with status 1 and leaves a wav file all the same *)
Definition env_decode_status : env :=
  with_decode good_env (fun _ _ => RunResult 1 (Some W1)).

Definition env_rename_fails : env :=
  with_io good_env (fun _ => IoFaults false CopyOk false true CopyOk).

Definition env_replace_truncated : env :=
  with_io good_env (fun _ => IoFaults false CopyOk false false (CopyTruncated 2)).

Definition env_backup_refused : env :=
  with_io good_env (fun _ => IoFaults false CopyRefused false false CopyOk).

(** ** Vocabulary of the statements *)

(** The sibling [name.ogg.bak] of [name.ogg]. *)
Definition sibling_bak (p : path) : path :=
  (PurePath.parent p ++ [PurePath.name p +:+ ".bak"])%list.

(** [wp m s Q]: running [m] in state [s] ends in a result and a state that
    satisfy [Q]. *)

Definition wp {A} (m : M A) (s : state) (Q : result A → state → Prop) : Prop :=
  Q (m s).1 (m s).2.

(** The store after the ffmpeg run: [temp] holds the output, if any. *)
Definition after_run (r : run_result) (temp : path) (m : gmap path bytes) : gmap path bytes :=
  match output r with
  | Some o => <[temp := o]> m
  | None => m
  end.

(** What was printed as a file heading: the [rel_path] of every
    "[i/n] Processing" line. *)
Definition processed (o : list line) : list string :=
  omap (fun l => match l with MsgProcessing _ _ rel => Some rel | _ => None end) o.

(** The headings in full: position, total and [rel_path] of every
    "[i/n] Processing" line. *)
Definition headings (o : list line) : list (nat * nat * string) :=
  omap (fun l => match l with MsgProcessing i n rel => Some (i, n, rel) | _ => None end) o.

(** How many "[OK] Re-encoded successfully" lines were printed. *)
Definition ok_lines (o : list line) : nat :=
  length (List.filter (fun l => match l with MsgOk => true | _ => false end) o).

(** The counts of every "Found" and every "Complete!" line. *)
Definition found_lines (o : list line) : list nat :=
  omap (fun l => match l with MsgFound n => Some n | _ => None end) o.

Definition summaries (o : list line) : list (nat * nat) :=
  omap (fun l => match l with MsgComplete a b => Some (a, b) | _ => None end) o.

(** The lines the per-file procedure prints: its three error reports. *)
Definition per_file_msg (l : line) : bool :=
  match l with
  | MsgFileNotFound | MsgToolFailed _ | MsgError _ => true
  | _ => false
  end.

(** [s'] extends the output of [s] by error reports only. *)
Definition quiet (s s' : state) : Prop :=
  ∃ new, out s' = (out s ++ new)%list ∧ forallb per_file_msg new = true.

(** What the backup step leaves at the backup path: untouched when no backup
    is asked for or one is there already, else what the copy managed. *)
Definition xray_backup (bk : bool) (old : option bytes) (fault : copy_fault)
    (orig : bytes) : option bytes :=
  if bk then
    match old with
    | Some b => Some b
    | None =>
        match fault with
        | CopyOk => Some orig
        | CopyRefused => None
        | CopyTruncated n => Some (List.firstn n orig)
        end
    end
  else old.

(** What the replace step leaves at the file's own path, and the result. *)
Definition xray_replace (fault : copy_fault) (orig new : bytes) : bool * bytes :=
  match fault with
  | CopyOk => (true, new)
  | CopyRefused => (false, orig)
  | CopyTruncated n => (false, List.firstn n new)
  end.

(** The directory test of a run: children only, or everything below. *)
Definition in_scope (d : path) (recursive : bool) (p : path) : bool :=
  if recursive then is_below d p else is_child d p.

(** What the loop needs of a candidate: a name, and the directory as its
    leading part. *)
Definition loopable (d : path) (p : path) : Prop :=
  PurePath.name p ≠ "" ∧ List.firstn (length d) p = d.

(** The heading printed for a candidate: [relative_to(directory)] in a
    recursive run, else the bare name. *)
Definition rel_path (d : path) (r : bool) (f : path) : string :=
  if r then PurePath.str (List.skipn (length d) f) else PurePath.name f.

(** [s'] extends the output of [s] by lines that are not file headings. *)
Definition silent (s s' : state) : Prop :=
  ∃ new, out s' = (out s ++ new)%list ∧ processed new = [].

(** What a run of the loop over [l] has counted and printed. *)
Record loop_post (d : path) (r : bool) (l : list path) (sc fl : nat)
    (s : state) (sc' fl' : nat) (s' : state) : Prop := LoopPost {
  loop_counts : sc' + fl' = sc + fl + length l;
  loop_dirs : dirs s' = dirs s;
  loop_out : ∃ new, out s' = (out s ++ new)%list
                    ∧ processed new = List.map (rel_path d r) l
}.

(** What the loop over [l], started at position [i] with [sc] successes,
    returns and prints. *)
Record loop_trace (d : path) (r : bool) (n : nat) (l : list path) (i sc fl : nat)
    (sc' fl' : nat) (new : list line) : Prop := LoopTrace {
  trace_headings :
    headings new = zip_with (fun k f => (k, n, rel_path d r f)) (seq i (length l)) l;
  trace_success : sc' = sc + ok_lines new;
  trace_total : sc' + fl' = sc + fl + length l;
  trace_summaries : summaries new = [] ∧ found_lines new = []
}.

(** The three ways a run of [process_directory] ends.  In the last one
    [mid] is what the loop printed. *)
Inductive run_report (d : path) (r : bool) (targets : list path)
    (present : bool) (new : list line) : Prop :=
| ReportMissing :
    present = false → new = [MsgDirNotFound d] → run_report d r targets present new
| ReportEmpty :
    present = true → targets = [] → new = [MsgNoFiles d] →
    run_report d r targets present new
| ReportSummary (sc fl : nat) (mid tail : list line) :
    present = true → targets ≠ [] →
    new = ([MsgFound (length targets); Rule "-"] ++ mid
           ++ [Rule "-"; MsgComplete sc fl] ++ tail)%list →
    processed mid = List.map (rel_path d r) targets →
    sc + fl = length targets →
    processed tail = [] →
    run_report d r targets present new.

(** The state in which [process_directory] starts: the banner lines are
    out, nothing else has happened. *)
Definition Files_started (argv : list string) (s : state) : state :=
  State (dirs s) (files s)
        (out s ++ [Rule "="; Text "OGG Re-encoder for X-Ray Engine"; Rule "=";
                   MsgTarget (argv_directory argv);
                   MsgRecursive (argv_recursive argv); Text ""])%list.

Definition Xray_started (argv : list string) (s : state) : state :=
  State (dirs s) (files s)
        (out s ++ [Rule "="; Text "OGG Re-encoder for X-Ray Engine";
                   Text "Uses ffmpeg + oggenc"; Rule "=";
                   MsgTarget (argv_directory argv);
                   MsgRecursive (argv_recursive argv)])%list.

Definition Xray_tools_ok (E : env) : bool :=
  fst (Xray.check_tools E) && snd (Xray.check_tools E).

(** The two scripts side by side. *)
Inductive script := FixOggFiles | FixOggXray.

Definition tools_ok (v : script) (E : env) : bool :=
  match v with
  | FixOggFiles => Files.check_ffmpeg E
  | FixOggXray => Xray_tools_ok E
  end.

Definition run_main (v : script) : env → list string → M unit :=
  match v with FixOggFiles => Files.main | FixOggXray => Xray.main end.

Definition run_process_directory (v : script) : env → path → bool → M unit :=
  match v with
  | FixOggFiles => Files.process_directory
  | FixOggXray => Xray.process_directory
  end.

Definition run_reencode (v : script) : env → path → bool → M bool :=
  match v with FixOggFiles => Files.reencode_ogg | FixOggXray => Xray.reencode_ogg end.

Definition targets (v : script) : path → bool → state → list path :=
  match v with FixOggFiles => Files.target_set | FixOggXray => Xray.target_set end.

Definition kept (v : script) : path → bool :=
  match v with FixOggFiles => Files.keep | FixOggXray => Xray.keep end.

Definition started (v : script) : list string → state → state :=
  match v with FixOggFiles => Files_started | FixOggXray => Xray_started end.

(** What the external transform itself wrote for a file with content
    [orig]: the output file of the ffmpeg run, or what oggenc makes of the
    decoder's output; [None] when it wrote nothing. *)
Definition transform_output (v : script) (E : env) (p : path) (orig : bytes)
    : option bytes :=
  match v with
  | FixOggFiles => output (ffmpeg_encode E p orig)
  | FixOggXray =>
      match output (ffmpeg_decode E p orig) with
      | Some wav => output (oggenc_encode E p wav)
      | None => None
      end
  end.

(** The file that the replace step puts at the file's own path.  In the
    single-stage script this is whatever lies at the temporary path after
    the ffmpeg run: the output of ffmpeg if it wrote one, else a file that
    was at that path before the run (the script does not look which).  In
    the two-stage script, whose temporary directory is fresh, it is the
    output of oggenc. *)
Definition staged (v : script) (E : env) (p : path) (orig : bytes) (s : state)
    : option bytes :=
  match v with
  | FixOggFiles =>
      match PurePath.with_suffix p ".tmp.ogg" with
      | Some temp => after_run (ffmpeg_encode E p orig) temp (files s) !! temp
      | None => None
      end
  | FixOggXray =>
      match output (ffmpeg_decode E p orig) with
      | Some wav => output (oggenc_encode E p wav)
      | None => None
      end
  end.

(** The loop as the specification words it: the per-file procedure is
    applied to the files in sequence, every file once, each on the state
    that the file before it left, whatever the results before it were.  For
    each file: the heading, the procedure with backup, and the "[OK]" line
    after a result True.  The value is the Transform Result of every file
    (True for Success) and the state at the end. *)
Fixpoint in_sequence (v : script) (E : env) (d : path) (r : bool) (n : nat)
    (l : list path) (i : nat) (s : state) : list (path * bool) * state :=
  match l with
  | [] => ([], s)
  | f :: rest =>
      let heading :=
        State (dirs s) (files s) (out s ++ [MsgProcessing i n (rel_path d r f)])%list in
      let step := run_reencode v E f true heading in
      let ok := match step.1 with Ok b => b | Raise _ => false end in
      let s1 := if ok then State (dirs step.2) (files step.2) (out step.2 ++ [MsgOk])%list
                else step.2 in
      let rest' := in_sequence v E d r n rest (S i) s1 in
      ((f, ok) :: rest'.1, rest'.2)
  end.



(** A file two or more levels below the directory. *)
Definition nested (d p : path) : Prop := is_below d p = true ∧ is_child d p = false.

(** The directory [d] holds the files named [names] and no other. *)
Definition holds_exactly (s : state) (d : path) (names : list string) : Prop :=
  ∀ p, is_child d p = true →
       (is_Some (files s !! p) ↔ ∃ nm, nm ∈ names ∧ p = (d ++ [nm])%list).

(** * Properties *)

(** ** Strings *)

Module StrFacts.
Import Str.

Lemma app_nil (t : string) : "" +:+ t = t.
Proof. reflexivity. Qed.

Lemma app_cons (a : ascii) (s t : string) : String a s +:+ t = String a (s +:+ t).
Proof. reflexivity. Qed.

Lemma length_app (s t : string) :
  String.length (s +:+ t) = String.length s + String.length t.
Proof.
  induction s as [|a s IH]; [reflexivity|].
  rewrite app_cons. simpl. now rewrite IH.
Qed.

Lemma sapp_assoc (s t u : string) : (s +:+ t) +:+ u = s +:+ (t +:+ u).
Proof.
  induction s as [|a s IH]; [reflexivity|].
  rewrite !app_cons. now rewrite IH.
Qed.

Lemma app_empty_r (s : string) : s +:+ "" = s.
Proof.
  induction s as [|a s IH]; [reflexivity|].
  rewrite app_cons. now rewrite IH.
Qed.

Lemma sapp_inv_head (s t u : string) : s +:+ t = s +:+ u → t = u.
Proof.
  induction s as [|a s IH]; [now rewrite !app_nil|].
  rewrite !app_cons. intros [= H]. auto.
Qed.

Lemma endswith_app (p suf : string) : endswith (p +:+ suf) suf = true.
Proof.
  induction p as [|a p IH].
  - rewrite app_nil. destruct suf; cbn [endswith]; [reflexivity|].
    rewrite String.eqb_refl. reflexivity.
  - rewrite app_cons. cbn [endswith]. rewrite IH. apply orb_true_r.
Qed.

Lemma endswith_inv (s suf : string) :
  endswith s suf = true → ∃ p, s = p +:+ suf.
Proof.
  induction s as [|a s IH]; cbn [endswith].
  - rewrite orb_false_r. intros H%String.eqb_eq. exists "". now subst.
  - intros [H%String.eqb_eq | H]%orb_true_iff.
    + exists "". now subst.
    + destruct (IH H) as [p ->]. now exists (String a p).
Qed.

Lemma endswith_length (s suf : string) :
  endswith s suf = true → (String.length suf ≤ String.length s)%nat.
Proof.
  intros [p ->]%endswith_inv. rewrite length_app. lia.
Qed.

(** Two endings of one length are the same ending. *)
Lemma endswith_same_length (s a b : string) :
  String.length a = String.length b →
  endswith s a = true → endswith s b = true → a = b.
Proof.
  intros Hlen. induction s as [|c s IH]; cbn [endswith].
  - rewrite !orb_false_r. intros ->%String.eqb_eq ->%String.eqb_eq. reflexivity.
  - intros [Ha%String.eqb_eq | Ha]%orb_true_iff [Hb%String.eqb_eq | Hb]%orb_true_iff.
    + congruence.
    + apply endswith_length in Hb. subst a. simpl in Hlen. lia.
    + apply endswith_length in Ha. subst b. simpl in Hlen. lia.
    + auto.
Qed.

(** A name that matches [*.ogg] does not end with [.bak]. *)
Lemma ogg_not_bak (nm : string) :
  endswith nm ".ogg" = true → endswith nm ".bak" = false.
Proof.
  intros H. destruct (endswith nm ".bak") eqn:Hb; [|reflexivity].
  assert (".ogg" = ".bak") by (eapply endswith_same_length; eauto).
  discriminate.
Qed.

Lemma ogg_nonempty (nm : string) : endswith nm ".ogg" = true → nm ≠ "".
Proof. intros H ->. discriminate. Qed.

Lemma take_app (s t : string) : take (String.length s) (s +:+ t) = s.
Proof.
  induction s as [|a s IH]; [now destruct t|].
  rewrite app_cons. simpl. now rewrite IH.
Qed.

Lemma drop_app (s t : string) : drop (String.length s) (s +:+ t) = t.
Proof.
  induction s as [|a s IH]; [now destruct t|].
  rewrite app_cons. simpl. assumption.
Qed.

Lemma take_drop (n : nat) (s : string) : take n s +:+ drop n s = s.
Proof.
  revert n. induction s as [|a s IH]; intros [|n]; simpl; try reflexivity.
  rewrite app_cons. now rewrite IH.
Qed.

Lemma length_drop (n : nat) (s : string) :
  String.length (drop n s) = String.length s - n.
Proof.
  revert n. induction s as [|a s IH]; intros [|n]; simpl; try reflexivity.
  apply IH.
Qed.

Lemma rfind_lt (c : ascii) (s : string) (i : nat) :
  rfind c s = Some i → (i < String.length s)%nat.
Proof.
  revert i. induction s as [|a s IH]; simpl; [discriminate|].
  intros i. destruct (rfind c s) as [j|].
  - intros [= <-]. specialize (IH j eq_refl). lia.
  - destruct (Ascii.eqb a c); [intros [= <-]; lia | discriminate].
Qed.

(** The part from the last [c] on starts with that [c] and has no other. *)
Lemma rfind_drop (c : ascii) (s : string) (i : nat) :
  rfind c s = Some i → rfind c (drop i s) = Some 0.
Proof.
  revert i. induction s as [|a s IH]; simpl; [discriminate|].
  intros i. destruct (rfind c s) as [j|] eqn:Hj.
  - intros [= <-]. simpl. auto.
  - destruct (Ascii.eqb a c) eqn:Hac; [|discriminate].
    intros [= <-]. simpl. now rewrite Hj, Hac.
Qed.

Lemma rfind_app (c : ascii) (s t : string) :
  rfind c t = Some 0 → rfind c (s +:+ t) = Some (String.length s).
Proof.
  intros H. induction s as [|a s IH]; [assumption|].
  rewrite app_cons. simpl. now rewrite IH.
Qed.

End StrFacts.

(** ** Paths and suffixes *)

Module PathFacts.
Import Str StrFacts PurePath.

Lemma name_parent (p : path) : name p ≠ "" → p = (parent p ++ [name p])%list.
Proof.
  unfold name, parent. intros H.
  destruct p as [|r [|r' p]].
  - now destruct H.
  - destruct (String.eqb r "/"); [now destruct H | reflexivity].
  - assert (Hne : r :: r' :: p ≠ []) by discriminate.
    destruct (exists_last Hne) as (l & a & Heq). rewrite Heq.
    rewrite removelast_last. rewrite last_snoc. reflexivity.
Qed.

Lemma name_snoc (d : path) (nm : string) : nm ≠ "/" → name (d ++ [nm])%list = nm.
Proof.
  intros H. destruct d as [|r [|r' d]].
  - apply String.eqb_neq in H. simpl. now rewrite H.
  - reflexivity.
  - change (name ((r :: r' :: d) ++ [nm])%list)
      with (default "" (last ((r :: r' :: d) ++ [nm])%list)).
    now rewrite last_snoc.
Qed.

(** [nm] splits into a stem and its suffix, and [with_suffix] keeps the
    stem. The suffix is empty or has its only dot in front. *)
Lemma name_with_suffix_stem (nm : string) :
  ∃ stem, nm = stem +:+ suffix nm
          ∧ (∀ suf, name_with_suffix nm suf = stem +:+ suf)
          ∧ (suffix nm = "" ∨ rfind "." (suffix nm) = Some 0).
Proof.
  unfold name_with_suffix, suffix.
  destruct (rfind "." nm) as [i|] eqn:Hi.
  2:{ exists nm. rewrite app_empty_r. simpl. auto. }
  destruct ((0 <? i) && (i <? String.length nm - 1))%nat eqn:Hb.
  2:{ exists nm. rewrite app_empty_r. simpl. auto. }
  pose proof (rfind_lt _ _ _ Hi) as Hlt.
  pose proof (rfind_drop _ _ _ Hi) as Hd.
  exists (take i nm). split; [now rewrite take_drop|]. split; [|now right].
  intros suf. destruct (String.eqb (drop i nm) "") eqn:He.
  - apply String.eqb_eq in He. rewrite He in Hd. discriminate.
  - rewrite length_drop. replace (String.length nm - (String.length nm - i))%nat with i by lia.
    reflexivity.
Qed.

Lemma name_with_suffix_neq (nm suf : string) :
  suf ≠ "" → rfind "." suf ≠ Some 0 → name_with_suffix nm suf ≠ nm.
Proof.
  intros Hne Hdot Heq.
  destruct (name_with_suffix_stem nm) as (stem & Hnm & Hws & Hsuf).
  rewrite Hws in Heq.
  assert (Hs : stem +:+ suf = stem +:+ suffix nm) by congruence.
  apply sapp_inv_head in Hs. subst suf. destruct Hsuf; contradiction.
Qed.

Lemma name_with_suffix_inj (nm a b : string) :
  name_with_suffix nm a = name_with_suffix nm b → a = b.
Proof.
  destruct (name_with_suffix_stem nm) as (stem & _ & Hws & _).
  rewrite !Hws. apply sapp_inv_head.
Qed.

(** For [name.ogg] with a non-empty [name], the new suffix replaces [.ogg]. *)
Lemma name_with_suffix_ogg (nm suf : string) :
  endswith nm ".ogg" = true → nm ≠ ".ogg" →
  ∃ stem, nm = stem +:+ ".ogg" ∧ name_with_suffix nm suf = stem +:+ suf.
Proof.
  intros [stem ->]%endswith_inv Hne. exists stem. split; [reflexivity|].
  assert (Hlen : (0 < String.length stem)%nat).
  { destruct stem; [now destruct Hne | simpl; lia]. }
  unfold name_with_suffix, suffix.
  rewrite (rfind_app "." stem ".ogg") by reflexivity.
  rewrite length_app. simpl String.length.
  replace ((0 <? String.length stem) && (String.length stem <? String.length stem + 4 - 1))%nat
    with true.
  2:{ symmetry. apply andb_true_iff. split; apply Nat.ltb_lt; lia. }
  rewrite drop_app. simpl.
  replace (String.length stem + 4 - 4)%nat with (String.length stem) by lia.
  now rewrite take_app.
Qed.

Lemma with_suffix_Some (p q : path) (suf : string) :
  with_suffix p suf = Some q →
  name p ≠ "" ∧ q = (parent p ++ [name_with_suffix (name p) suf])%list.
Proof.
  unfold with_suffix. destruct (String.eqb (name p) "") eqn:He; [discriminate|].
  intros [= <-]. apply String.eqb_neq in He. auto.
Qed.

Lemma with_suffix_named (p : path) (suf : string) :
  name p ≠ "" → with_suffix p suf = Some (parent p ++ [name_with_suffix (name p) suf])%list.
Proof.
  intros H%String.eqb_neq. unfold with_suffix. now rewrite H.
Qed.

(** The temporary and the backup path of [p] differ from [p] and from each
    other. *)
Lemma with_suffix_neq (p q : path) (suf : string) :
  suf ≠ "" → rfind "." suf ≠ Some 0 → with_suffix p suf = Some q → q ≠ p.
Proof.
  intros Hne Hdot [Hnm ->]%with_suffix_Some Heq.
  rewrite (name_parent p Hnm) in Heq at 3.
  apply List.app_inv_head in Heq. injection Heq as Heq.
  now apply name_with_suffix_neq in Heq.
Qed.

Lemma backup_path_ogg (p : path) :
  endswith (name p) ".ogg" = true → name p ≠ ".ogg" →
  with_suffix p ".ogg.bak" = Some (sibling_bak p).
Proof.
  intros Hogg Hne. rewrite with_suffix_named by now apply ogg_nonempty.
  destruct (name_with_suffix_ogg (name p) ".ogg.bak" Hogg Hne) as (stem & Hnm & ->).
  unfold sibling_bak. rewrite Hnm. rewrite sapp_assoc. reflexivity.
Qed.

End PathFacts.

(** ** Reasoning rules for the monad *)

Lemma wp_elim {A} (m : M A) s (Q : result A → state → Prop) :
  wp m s Q → ∃ r s', m s = (r, s') ∧ Q r s'.
Proof. unfold wp. destruct (m s) as [r s']. eauto. Qed.

Section rules.
Context {A B : Type}.
Implicit Types (s : state).

Lemma wp_ret (a : A) s Q : Q (Ok a) s → wp (ret a) s Q.
Proof. exact id. Qed.

Lemma wp_raise (e : exn) s (Q : result A → state → Prop) :
  Q (Raise e) s → wp (raise e) s Q.
Proof. exact id. Qed.

Lemma wp_bind (m : M A) (k : A → M B) s Q :
  wp m s (fun r s1 => match r with
                      | Ok a => wp (k a) s1 Q
                      | Raise e => Q (Raise e) s1
                      end) →
  wp (bind m k) s Q.
Proof. unfold wp, bind. destruct (m s) as [[a|e] s1]; exact id. Qed.

Lemma wp_try_except (body : M A) (handler : exn → M A) s Q :
  wp body s (fun r s1 => match r with
                         | Ok a => Q (Ok a) s1
                         | Raise e => if is_Exception e then wp (handler e) s1 Q
                                      else Q (Raise e) s1
                         end) →
  wp (try_except body handler) s Q.
Proof.
  unfold wp, try_except. destruct (body s) as [[a|e] s1]; simpl; [exact id|].
  destruct (is_Exception e); exact id.
Qed.

Lemma wp_try_except_all (body handler : M A) s Q :
  wp body s (fun r s1 => match r with
                         | Ok a => Q (Ok a) s1
                         | Raise e => wp handler s1 Q
                         end) →
  wp (try_except_all body handler) s Q.
Proof. unfold wp, try_except_all. destruct (body s) as [[a|e] s1]; exact id. Qed.

Lemma wp_of_option (o : option A) (e : exn) s Q :
  (∀ a, o = Some a → Q (Ok a) s) → (o = None → Q (Raise e) s) →
  wp (of_option o e) s Q.
Proof. destruct o; unfold wp; simpl; auto. Qed.

End rules.

Section primitive_rules.
Implicit Types (s : state) (p : path) (Q : result unit → state → Prop).

Lemma wp_print (l : line) s Q :
  Q (Ok tt) (State (dirs s) (files s) (out s ++ [l])%list) → wp (print l) s Q.
Proof. exact id. Qed.

Lemma wp_exists p s (Q : result bool → state → Prop) :
  (∀ b, files s !! p = Some b → Q (Ok true) s) →
  (files s !! p = None → Q (Ok false) s) →
  wp (exists_ p) s Q.
Proof.
  intros H1 H2. unfold wp, exists_. simpl.
  destruct (files s !! p) as [b|] eqn:E.
  - rewrite bool_decide_eq_true_2 by eauto. eauto.
  - rewrite bool_decide_eq_false_2 by (intros [? ?]; discriminate). eauto.
Qed.

Lemma wp_unlink (fault : bool) p s Q :
  (fault = true → Q (Raise OSError) s) →
  (fault = false → ∀ b, files s !! p = Some b → Q (Ok tt) (set_files (delete p) s)) →
  (fault = false → files s !! p = None → Q (Raise FileNotFoundError) s) →
  wp (unlink fault p) s Q.
Proof.
  intros H1 H2 H3. unfold wp, unlink. destruct fault; [auto|].
  destruct (files s !! p) eqn:E; simpl; eauto.
Qed.

Lemma wp_rename (fault : bool) (src dst : path) s Q :
  (fault = true → Q (Raise OSError) s) →
  (fault = false → ∀ b, files s !! src = Some b →
     Q (Ok tt) (set_files (fun m => <[dst := b]> (delete src m)) s)) →
  (fault = false → files s !! src = None → Q (Raise FileNotFoundError) s) →
  wp (rename fault src dst) s Q.
Proof.
  intros H1 H2 H3. unfold wp, rename. destruct fault; [auto|].
  destruct (files s !! src) eqn:E; simpl; eauto.
Qed.

Lemma wp_write_file (fault : copy_fault) (b : bytes) (dst : path) s Q :
  (fault = CopyOk → Q (Ok tt) (set_files (insert dst b) s)) →
  (fault = CopyRefused → Q (Raise OSError) s) →
  (∀ n, fault = CopyTruncated n →
     Q (Raise OSError) (set_files (insert dst (List.firstn n b)) s)) →
  wp (write_file fault b dst) s Q.
Proof. intros H1 H2 H3. unfold wp, write_file. destruct fault; simpl; eauto. Qed.

Lemma wp_copy2 (fault : copy_fault) (src dst : path) s Q :
  (files s !! src = None → Q (Raise FileNotFoundError) s) →
  (∀ b, files s !! src = Some b → wp (write_file fault b dst) s Q) →
  wp (copy2 fault src dst) s Q.
Proof.
  intros H1 H2. unfold wp, copy2. destruct (files s !! src) eqn:E; simpl; eauto.
  apply (H2 _ eq_refl).
Qed.
End primitive_rules.

(** Symbolic execution in program order: one rule per step, lookups in
    updated stores normalised, impossible branches closed. *)

Ltac wp_simpl :=
  cbv beta iota; cbn [files dirs out set_files is_Exception exn_text negb] in *.

Ltac norm_lookups :=
  repeat match goal with
  | H : <[?k:=_]> _ !! ?k = _ |- _ => rewrite lookup_insert_eq in H
  | H : <[_:=_]> _ !! _ = _ |- _ => rewrite lookup_insert_ne in H by congruence
  | H : delete ?k _ !! ?k = _ |- _ => rewrite lookup_delete_eq in H
  | H : delete _ _ !! _ = _ |- _ => rewrite lookup_delete_ne in H by congruence
  end.

Ltac norm_goal :=
  repeat first
    [ rewrite lookup_insert_eq
    | rewrite lookup_delete_eq
    | rewrite lookup_insert_ne by congruence
    | rewrite lookup_delete_ne by congruence ].

Ltac wp_prune := norm_lookups; try discriminate; try congruence.

Ltac wp_step :=
  lazymatch goal with
  | |- wp (bind _ _) _ _ => apply wp_bind
  | |- wp (ret _) _ _ => apply wp_ret
  | |- wp (raise _) _ _ => apply wp_raise
  | |- wp (print _) _ _ => apply wp_print
  | |- wp (try_except _ _) _ _ => apply wp_try_except
  | |- wp (try_except_all _ _) _ _ => apply wp_try_except_all
  | |- wp (of_option (Some ?a) _) _ _ => apply (wp_ret a)
  | |- wp (of_option None ?e) _ _ => apply (wp_raise e)
  | |- wp (of_option _ _) _ _ => apply wp_of_option; intros
  | |- wp (exists_ _) _ _ => apply wp_exists; intros
  | |- wp (unlink _ _) _ _ => apply wp_unlink; intros
  | |- wp (rename _ _ _) _ _ => apply wp_rename; intros
  | |- wp (copy2 _ _ _) _ _ => apply wp_copy2; intros
  | |- wp (write_file _ _ _) _ _ => apply wp_write_file; intros
  | |- wp (when ?b _) _ _ => unfold when at 1
  | |- wp (if ?b then _ else _) _ _ => destruct b eqn:?
  end; wp_simpl; wp_prune.

(** From a [wp] fact with an [Ok] postcondition to the equation of the run. *)
Ltac wp_start :=
  lazymatch goal with
  | |- ∃ b s', ?m ?st = (Ok b, s') ∧ @?Q b s' =>
      cut (wp m st (fun r s' => ∃ b, r = Ok b ∧ Q b s'));
      [ let r0 := fresh in let s0 := fresh in let b0 := fresh in
        let Heq := fresh in let HQ := fresh in
        intros (r0 & s0 & Heq & b0 & -> & HQ)%wp_elim; exists b0, s0; split; [exact Heq | exact HQ]
      | ]
  end.

(** ** The per-file procedure of [fix_ogg_files.py] *)

Lemma wp_run_ffmpeg E p temp orig s (Q : result run_result → state → Prop) :
  files s !! p = Some orig →
  Q (Ok (ffmpeg_encode E p orig))
    (State (dirs s) (after_run (ffmpeg_encode E p orig) temp (files s)) (out s)) →
  wp (Files.run_ffmpeg E p temp) s Q.
Proof.
  intros Hp HQ. unfold wp, Files.run_ffmpeg, after_run in *. rewrite Hp. simpl.
  destruct (output _); [exact HQ | destruct s; exact HQ].
Qed.

Lemma processed_per_file (new : list line) :
  forallb per_file_msg new = true → processed new = [].
Proof.
  induction new as [|l new IH]; [reflexivity|]. simpl.
  intros [Hl Hn]%andb_true_iff. unfold processed in *. simpl.
  destruct l; try discriminate; simpl; auto.
Qed.

Ltac solve_quiet :=
  first
    [ exists []; split; [symmetry; apply app_nil_r | reflexivity]
    | eexists; split; [rewrite <- ?List.app_assoc; reflexivity | reflexivity] ].

Lemma after_run_other (r : run_result) (temp q : path) (m : gmap path bytes) :
  q ≠ temp → after_run r temp m !! q = m !! q.
Proof.
  intros Hq. unfold after_run. destruct (output r); [|reflexivity].
  now rewrite lookup_insert_ne by congruence.
Qed.

(** A file that is not there: reported, nothing touched. *)
Lemma Files_reencode_absent E p bk s :
  files s !! p = None →
  Files.reencode_ogg E p bk s =
    (Ok false, State (dirs s) (files s) (out s ++ [MsgFileNotFound])%list).
Proof.
  intros Hp. unfold Files.reencode_ogg, bind, exists_. simpl.
  rewrite bool_decide_eq_false_2; [reflexivity|].
  rewrite Hp. now intros [? ?].
Qed.

(** Every path through the procedure for a file that is there.  [temp] and
    [backup] are its temporary and backup paths; [r] is the ffmpeg run and
    [m1] the store after it. *)
Lemma Files_reencode_cases E p bk s temp backup orig :
  files s !! p = Some orig →
  PurePath.with_suffix p ".tmp.ogg" = Some temp →
  PurePath.with_suffix p ".ogg.bak" = Some backup →
  temp ≠ p → backup ≠ p → temp ≠ backup →
  let r := ffmpeg_encode E p orig in
  let m1 := after_run r temp (files s) in
  ∃ b s', Files.reencode_ogg E p bk s = (Ok b, s')
    ∧ dirs s' = dirs s
    ∧ quiet s s'
    ∧ (∀ q, q ≠ p → q ≠ temp → q ≠ backup → files s' !! q = files s !! q)
    ∧ files s' !! temp = None
    ∧ (returncode r ≠ 0%Z →
         b = false ∧ files s' !! p = Some orig
         ∧ files s' !! backup = files s !! backup)
    ∧ (files s' !! p = Some orig ∧ b = false
       ∨ returncode r = 0%Z
         ∧ (bk = true → files s' !! backup = Some orig)
         ∧ (b = true ∧ is_Some (m1 !! temp) ∧ files s' !! p = m1 !! temp
            ∨ b = false ∧ files s' !! p = None)).
Proof.
  intros Hp Ht Hb Htp Hbp Htb r m1.
  assert (p ≠ temp) by congruence. assert (p ≠ backup) by congruence.
  assert (backup ≠ temp) by congruence.
  wp_start. subst r m1. unfold Files.reencode_ogg. rewrite Ht, Hb.
  repeat wp_step.
  apply wp_run_ffmpeg with (orig := orig); [assumption|]. wp_simpl.
  set (r := ffmpeg_encode E p orig).
  set (m1 := after_run r temp (files s)).
  assert (Hm1p : m1 !! p = Some orig).
  { unfold m1. now rewrite after_run_other by congruence. }
  assert (Hm1q : ∀ q, q ≠ temp → m1 !! q = files s !! q).
  { intros q Hq. unfold m1. now apply after_run_other. }
  clearbody m1.
  destruct (Z.eqb_spec (returncode r) 0) as [Hrc|Hrc]; cbn [negb].
  all: repeat wp_step.
  all: (eexists; split; [reflexivity|]).
  all: (split; [reflexivity|]).
  all: (split; [solve_quiet|]).
  all: (split; [intros; norm_goal; auto|]).
  all: (split; [norm_goal; auto|]).
  all: (split; [intros; try congruence; norm_goal; rewrite ?Hm1q by congruence; auto|]).
  all: norm_goal.
  all: try (left; split; [assumption|reflexivity]).
  all: right; split; [assumption|]; split; [intros; norm_goal; try congruence|].
  all: try (right; split; reflexivity).
  all: left; split; [reflexivity|]; eauto.
Qed.

(** The temporary and backup paths of a named file, all three distinct. *)
Lemma sibling_paths (p : path) :
  PurePath.name p ≠ "" →
  ∃ temp backup,
    PurePath.with_suffix p ".tmp.ogg" = Some temp
    ∧ PurePath.with_suffix p ".ogg.bak" = Some backup
    ∧ temp ≠ p ∧ backup ≠ p ∧ temp ≠ backup.
Proof.
  intros Hnm. do 2 eexists.
  split; [now apply PathFacts.with_suffix_named|].
  split; [now apply PathFacts.with_suffix_named|].
  split; [|split].
  - eapply PathFacts.with_suffix_neq; [| |now apply PathFacts.with_suffix_named]; discriminate.
  - eapply PathFacts.with_suffix_neq; [| |now apply PathFacts.with_suffix_named]; discriminate.
  - intros Heq. apply List.app_inv_head in Heq. injection Heq as Heq.
    apply PathFacts.name_with_suffix_inj in Heq. discriminate.
Qed.

(** The procedure returns for every named path, whatever the tools and the
    faults do; it leaves the directories alone, prints no file heading, and
    writes nowhere but at the file, its temporary and its backup path. *)
Lemma Files_reencode_total E p bk s :
  PurePath.name p ≠ "" →
  ∃ b s', Files.reencode_ogg E p bk s = (Ok b, s')
    ∧ dirs s' = dirs s
    ∧ quiet s s'
    ∧ (∀ q temp backup,
         PurePath.with_suffix p ".tmp.ogg" = Some temp →
         PurePath.with_suffix p ".ogg.bak" = Some backup →
         q ≠ p → q ≠ temp → q ≠ backup → files s' !! q = files s !! q).
Proof.
  intros Hnm. destruct (files s !! p) as [orig|] eqn:Hp.
  - destruct (sibling_paths p Hnm) as (temp & backup & Ht & Hb & H1 & H2 & H3).
    destruct (Files_reencode_cases E p bk s temp backup orig Hp Ht Hb H1 H2 H3)
      as (b & s' & Heq & Hd & Ho & Hfr & _).
    exists b, s'. repeat split; try assumption.
    intros q t' b' Ht' Hb'. rewrite Ht in Ht'. rewrite Hb in Hb'.
    injection Ht' as <-. injection Hb' as <-. apply Hfr.
  - rewrite (Files_reencode_absent E p bk s Hp). do 2 eexists.
    split; [reflexivity|]. simpl. split; [reflexivity|].
    split; [solve_quiet | reflexivity].
Qed.

(** ** The per-file procedure of [fix_ogg_xray.py] *)

Lemma wp_run_decode E p orig s (Q : result run_result → state → Prop) :
  files s !! p = Some orig →
  Q (Ok (ffmpeg_decode E p orig)) s →
  wp (Xray.run_decode E p) s Q.
Proof. intros Hp HQ. unfold wp, Xray.run_decode. rewrite Hp. exact HQ. Qed.

Lemma Xray_reencode_absent E p bk s :
  files s !! p = None →
  Xray.reencode_ogg E p bk s =
    (Ok false, State (dirs s) (files s) (out s ++ [MsgFileNotFound])%list).
Proof.
  intros Hp. unfold Xray.reencode_ogg, bind, exists_. simpl.
  rewrite bool_decide_eq_false_2; [reflexivity|].
  rewrite Hp. now intros [? ?].
Qed.

(** Every path through the procedure for a file that is there. *)
Lemma Xray_reencode_cases E p bk s backup orig :
  files s !! p = Some orig →
  PurePath.with_suffix p ".ogg.bak" = Some backup →
  backup ≠ p →
  let d := ffmpeg_decode E p orig in
  ∃ b s', Xray.reencode_ogg E p bk s = (Ok b, s')
    ∧ dirs s' = dirs s
    ∧ quiet s s'
    ∧ (∀ q, q ≠ p → q ≠ backup → files s' !! q = files s !! q)
    ∧ match output d with
      | None => b = false ∧ files s' = files s
      | Some wav =>
          match output (oggenc_encode E p wav) with
          | None => b = false ∧ files s' = files s
          | Some new =>
              files s' !! backup
                = xray_backup bk (files s !! backup) (backup_copy (io E p)) orig
              ∧ b = (xray_replace (replace_copy (io E p)) orig new).1
              ∧ files s' !! p = Some (xray_replace (replace_copy (io E p)) orig new).2
          end
      end.
Proof.
  intros Hp Hb Hbp d. assert (p ≠ backup) by congruence.
  wp_start. subst d. unfold Xray.reencode_ogg, Xray.run_oggenc. rewrite Hb.
  repeat wp_step.
  apply wp_run_decode with (orig := orig); [assumption|]. wp_simpl.
  destruct (output (ffmpeg_decode E p orig)) as [wav|] eqn:Hd.
  2:{ repeat wp_step. eexists. split; [reflexivity|]. simpl.
      split; [reflexivity|]. split; [solve_quiet|]. auto. }
  repeat wp_step.
  destruct (output (oggenc_encode E p wav)) as [new|] eqn:He.
  2:{ repeat wp_step. eexists. split; [reflexivity|]. simpl.
      split; [reflexivity|]. split; [solve_quiet|]. auto. }
  repeat wp_step.
  all: (eexists; split; [reflexivity|]).
  all: (split; [reflexivity|]).
  all: (split; [solve_quiet|]).
  all: (split; [intros; norm_goal; auto|]).
  all: unfold xray_backup, xray_replace;
       repeat match goal with H : _ = _ |- _ => rewrite H end; simpl.
  all: norm_goal; repeat split; try congruence.
  all: simplify_eq; reflexivity.
Qed.

(** The two-stage procedure returns for every path: every exception of
    its body is caught. *)
Lemma Xray_reencode_total E p bk s :
  ∃ b s', Xray.reencode_ogg E p bk s = (Ok b, s')
    ∧ dirs s' = dirs s
    ∧ quiet s s'
    ∧ (∀ q backup,
         PurePath.with_suffix p ".ogg.bak" = Some backup →
         q ≠ p → q ≠ backup → files s' !! q = files s !! q).
Proof.
  destruct (files s !! p) as [orig|] eqn:Hp.
  2:{ rewrite (Xray_reencode_absent E p bk s Hp). do 2 eexists.
      split; [reflexivity|]. simpl. split; [reflexivity|].
      split; [solve_quiet | reflexivity]. }
  destruct (PurePath.with_suffix p ".ogg.bak") as [backup|] eqn:Hb.
  - assert (Hbp : backup ≠ p).
    { eapply PathFacts.with_suffix_neq; [| |exact Hb]; discriminate. }
    destruct (Xray_reencode_cases E p bk s backup orig Hp Hb Hbp)
      as (b & s' & Heq & Hd & Ho & Hfr & _).
    exists b, s'. repeat split; try assumption.
    intros q b' [= <-]. apply Hfr.
  - wp_start. unfold Xray.reencode_ogg, Xray.run_oggenc. rewrite Hb.
    repeat wp_step.
    apply wp_run_decode with (orig := orig); [assumption|]. wp_simpl.
    destruct (output (ffmpeg_decode E p orig)) as [wav|]; repeat wp_step.
    2:{ eexists. split; [reflexivity|]. simpl. split; [reflexivity|].
        split; [solve_quiet|]. discriminate. }
    destruct (output (oggenc_encode E p wav)) as [new|]; repeat wp_step.
    all: (eexists; split; [reflexivity|]); simpl.
    all: (split; [reflexivity|]).
    all: (split; [solve_quiet|]).
    all: discriminate.
Qed.

(** ** Discovery *)

Lemma elem_of_listing (s : state) (p : path) :
  p ∈ listing s ↔ is_Some (files s !! p).
Proof.
  unfold listing. rewrite list_elem_of_fmap. split.
  - intros ([q b] & -> & Hin). apply elem_of_map_to_list in Hin. eauto.
  - intros [b Hb]. exists (p, b). split; [reflexivity|].
    now apply elem_of_map_to_list.
Qed.

Lemma NoDup_listing (s : state) : NoDup (listing s).
Proof. apply NoDup_fst_map_to_list. Qed.

Lemma elem_of_filter_bool {A} (f : A → bool) (l : list A) (x : A) :
  x ∈ List.filter f l ↔ x ∈ l ∧ f x = true.
Proof. rewrite !list_elem_of_In. apply filter_In. Qed.

Lemma NoDup_filter_bool {A} (f : A → bool) (l : list A) :
  NoDup l → NoDup (List.filter f l).
Proof. rewrite !NoDup_ListNoDup. apply List.NoDup_filter. Qed.

Lemma is_child_below (d p : path) : is_child d p = true → is_below d p = true.
Proof.
  unfold is_child, is_below. rewrite !bool_decide_eq_true.
  intros [Hlen Hpre]. split; [lia | assumption].
Qed.

Lemma in_scope_below (d : path) (r : bool) (p : path) :
  in_scope d r p = true → is_below d p = true.
Proof. destruct r; simpl; [tauto | apply is_child_below]. Qed.

Lemma is_child_snoc (d : path) (nm : string) : is_child d (d ++ [nm])%list = true.
Proof.
  unfold is_child. apply bool_decide_eq_true. split.
  - rewrite length_app. simpl. lia.
  - now rewrite firstn_app, Nat.sub_diag, firstn_all, app_nil_r.
Qed.

Lemma is_child_inv (d p : path) :
  is_child d p = true → ∃ nm, p = (d ++ [nm])%list.
Proof.
  unfold is_child. rewrite bool_decide_eq_true. intros [Hlen Hpre].
  rewrite <- (firstn_skipn (length d) p), Hpre.
  assert (Hs : length (List.skipn (length d) p) = 1) by (rewrite length_skipn; lia).
  destruct (List.skipn (length d) p) as [|nm [|? ?]]; try discriminate.
  now exists nm.
Qed.

Section discovery.
Variables (d : path) (r : bool) (s : state).

Lemma Files_discover_run :
  Files.discover d r s = (Ok (Files.target_set d r s), s).
Proof. unfold Files.target_set, Files.discover. now destruct r. Qed.

Lemma Xray_discover_run :
  Xray.discover d r s = (Ok (Xray.target_set d r s), s).
Proof. unfold Xray.target_set, Xray.discover. now destruct r. Qed.

Lemma Files_target_spec (p : path) :
  p ∈ Files.target_set d r s ↔
    is_Some (files s !! p) ∧ in_scope d r p = true
    ∧ fnmatch_star (PurePath.name p) ".ogg" = true ∧ Files.keep p = true.
Proof.
  unfold Files.target_set, Files.discover, in_scope.
  destruct r; simpl; rewrite !elem_of_filter_bool, elem_of_listing, andb_true_iff; tauto.
Qed.

Lemma Xray_target_spec (p : path) :
  p ∈ Xray.target_set d r s ↔
    is_Some (files s !! p) ∧ in_scope d r p = true
    ∧ fnmatch_star (PurePath.name p) ".ogg" = true ∧ Xray.keep p = true.
Proof.
  unfold Xray.target_set, Xray.discover, in_scope.
  destruct r; simpl; rewrite !elem_of_filter_bool, elem_of_listing, andb_true_iff; tauto.
Qed.

Lemma Files_target_NoDup : NoDup (Files.target_set d r s).
Proof.
  unfold Files.target_set, Files.discover.
  destruct r; simpl; do 2 apply NoDup_filter_bool; apply NoDup_listing.
Qed.

Lemma Xray_target_NoDup : NoDup (Xray.target_set d r s).
Proof.
  unfold Xray.target_set, Xray.discover.
  destruct r; simpl; do 2 apply NoDup_filter_bool; apply NoDup_listing.
Qed.
End discovery.

Lemma in_scope_loopable (d : path) (r : bool) (p : path) :
  in_scope d r p = true → fnmatch_star (PurePath.name p) ".ogg" = true →
  loopable d p.
Proof.
  intros Hs Hm. split; [now apply StrFacts.ogg_nonempty|].
  apply in_scope_below in Hs. unfold is_below in Hs.
  apply bool_decide_eq_true in Hs. tauto.
Qed.

Lemma Files_target_loopable (d : path) (r : bool) (s : state) :
  Forall (loopable d) (Files.target_set d r s).
Proof.
  apply Forall_forall. intros p (_ & Hs & Hm & _)%Files_target_spec.
  eapply in_scope_loopable; eauto.
Qed.

Lemma Xray_target_loopable (d : path) (r : bool) (s : state) :
  Forall (loopable d) (Xray.target_set d r s).
Proof.
  apply Forall_forall. intros p (_ & Hs & Hm & _)%Xray_target_spec.
  eapply in_scope_loopable; eauto.
Qed.

(** ** The loop and [process_directory] *)

Lemma rel_path_run (d : path) (r : bool) (f : path) (s : state) :
  List.firstn (length d) f = d →
  (if r
   then let* x := of_option (PurePath.relative_to f d) ValueError in ret (PurePath.str x)
   else ret (PurePath.name f)) s = (Ok (rel_path d r f), s).
Proof.
  intros Hpre. unfold rel_path, PurePath.relative_to. destruct r; [|reflexivity].
  now rewrite bool_decide_eq_true_2 by assumption.
Qed.

Lemma processed_app (a b : list line) :
  processed (a ++ b)%list = (processed a ++ processed b)%list.
Proof. apply omap_app. Qed.

Lemma quiet_silent (s s' : state) : quiet s s' → silent s s'.
Proof. intros (new & Ho & Hn). exists new. auto using processed_per_file. Qed.

Lemma silent_refl (s : state) : silent s s.
Proof. exists []. split; [now rewrite app_nil_r | reflexivity]. Qed.

Lemma loop_post_nil d r sc fl s : loop_post d r [] sc fl s sc fl s.
Proof.
  split; simpl; [lia | reflexivity |].
  exists []. split; [now rewrite app_nil_r | reflexivity].
Qed.

(** One more file in front: heading, per-file procedure, then the rest. *)
Lemma loop_post_cons d r f l i n sc fl s s1 s' (ok : bool) sc' fl' :
  dirs s1 = dirs s →
  silent (State (dirs s) (files s) (out s ++ [MsgProcessing i n (rel_path d r f)])%list) s1 →
  (∃ s2, silent s1 s2 ∧ dirs s2 = dirs s1
         ∧ loop_post d r l (if ok then S sc else sc) (if ok then fl else S fl)
                     s2 sc' fl' s') →
  loop_post d r (f :: l) sc fl s sc' fl' s'.
Proof.
  intros Hd (new1 & Ho1 & Hn1) (s2 & (new2 & Ho2 & Hn2) & Hd2 & [Hc Hd' (new' & Hpre & Hn')]).
  simpl in Ho1. split.
  - simpl. destruct ok; lia.
  - congruence.
  - exists ([MsgProcessing i n (rel_path d r f)] ++ new1 ++ new2 ++ new')%list. split.
    + rewrite Hpre, Ho2, Ho1. now rewrite <- !List.app_assoc.
    + rewrite !processed_app, Hn1, Hn2, Hn'. reflexivity.
Qed.

Lemma Files_loop_spec E d r n l :
  Forall (loopable d) l → ∀ i sc fl s,
  ∃ sc' fl' s', Files.loop E d r n l i sc fl s = (Ok (sc', fl'), s')
                ∧ loop_post d r l sc fl s sc' fl' s'.
Proof.
  induction 1 as [|f l [Hnm Hpre] Hl IH]; intros i sc fl s.
  - exists sc, fl, s. split; [reflexivity | apply loop_post_nil].
  - cbn [Files.loop]. unfold bind at 1. rewrite (rel_path_run d r f s Hpre).
    unfold bind at 1, print at 1.
    set (s0 := State (dirs s) (files s) (out s ++ [MsgProcessing i n (rel_path d r f)])%list).
    unfold bind at 1.
    destruct (Files_reencode_total E f true s0 Hnm) as (ok & s1 & -> & Hd1 & Hq1 & _).
    destruct ok.
    + unfold bind at 1, print at 1.
      set (s2 := State (dirs s1) (files s1) (out s1 ++ [MsgOk])%list).
      destruct (IH (S i) (S sc) fl s2) as (sc' & fl' & s' & -> & Hpost).
      exists sc', fl', s'. split; [reflexivity|].
      apply (loop_post_cons d r f l i n sc fl s s1 s' true);
        [exact Hd1 | now apply quiet_silent |].
      exists s2. split; [|split; [reflexivity | exact Hpost]].
      exists [MsgOk]. split; reflexivity.
    + destruct (IH (S i) sc (S fl) s1) as (sc' & fl' & s' & -> & Hpost).
      exists sc', fl', s'. split; [reflexivity|].
      apply (loop_post_cons d r f l i n sc fl s s1 s' false);
        [exact Hd1 | now apply quiet_silent |].
      exists s1. split; [apply silent_refl | split; [reflexivity | exact Hpost]].
Qed.

Lemma Xray_loop_spec E d r n l :
  Forall (loopable d) l → ∀ i sc fl s,
  ∃ sc' fl' s', Xray.loop E d r n l i sc fl s = (Ok (sc', fl'), s')
                ∧ loop_post d r l sc fl s sc' fl' s'.
Proof.
  induction 1 as [|f l [Hnm Hpre] Hl IH]; intros i sc fl s.
  - exists sc, fl, s. split; [reflexivity | apply loop_post_nil].
  - cbn [Xray.loop]. unfold bind at 1. rewrite (rel_path_run d r f s Hpre).
    unfold bind at 1, print at 1.
    set (s0 := State (dirs s) (files s) (out s ++ [MsgProcessing i n (rel_path d r f)])%list).
    unfold bind at 1.
    destruct (Xray_reencode_total E f true s0) as (ok & s1 & -> & Hd1 & Hq1 & _).
    destruct ok.
    + unfold bind at 1, print at 1.
      set (s2 := State (dirs s1) (files s1) (out s1 ++ [MsgOk])%list).
      destruct (IH (S i) (S sc) fl s2) as (sc' & fl' & s' & -> & Hpost).
      exists sc', fl', s'. split; [reflexivity|].
      apply (loop_post_cons d r f l i n sc fl s s1 s' true);
        [exact Hd1 | now apply quiet_silent |].
      exists s2. split; [|split; [reflexivity | exact Hpost]].
      exists [MsgOk]. split; reflexivity.
    + destruct (IH (S i) sc (S fl) s1) as (sc' & fl' & s' & -> & Hpost).
      exists sc', fl', s'. split; [reflexivity|].
      apply (loop_post_cons d r f l i n sc fl s s1 s' false);
        [exact Hd1 | now apply quiet_silent |].
      exists s1. split; [apply silent_refl | split; [reflexivity | exact Hpost]].
Qed.

Lemma Files_process_directory_spec E d r s :
  ∃ s' new, Files.process_directory E d r s = (Ok tt, s')
    ∧ dirs s' = dirs s
    ∧ out s' = (out s ++ new)%list
    ∧ run_report d r (Files.target_set d r s) (dir_present s d) new
    ∧ (dir_present s d = false ∨ Files.target_set d r s = [] → files s' = files s).
Proof.
  unfold Files.process_directory. unfold bind at 1, dir_exists at 1.
  destruct (dir_present s d) eqn:Hdir; cbn [negb].
  2:{ do 2 eexists. split; [reflexivity|]. simpl. repeat split.
      now apply ReportMissing. }
  unfold bind at 1. rewrite Files_discover_run.
  pose proof (Files_target_loopable d r s) as Hloop.
  destruct (Files.target_set d r s) as [|f l] eqn:Hts.
  { do 2 eexists. split; [reflexivity|]. simpl. repeat split.
    now apply ReportEmpty. }
  set (n := length (f :: l)).
  unfold bind at 1, print at 1. unfold bind at 1, print at 1. cbn [dirs files out].
  unfold bind at 1.
  match goal with |- context [Files.loop E d r n (f :: l) 1 0 0 ?s0] =>
    destruct (Files_loop_spec E d r n (f :: l) Hloop 1 0 0 s0)
      as (sc & fl & s1 & -> & [Hc Hd (mid & Ho & Hp)]) end.
  cbn [dirs out] in Hd, Ho. cbn [fst snd].
  unfold bind at 1, print at 1. unfold bind at 1, print at 1. cbn [dirs files out].
  destruct (0 <? sc)%nat eqn:Hsc; cbn [when].
  - unfold bind at 1, print at 1. unfold print at 1. cbn [dirs files out].
    do 2 eexists. split; [reflexivity|]. cbn [dirs out]. split; [exact Hd|].
    split; [|split; [|intros [?|?]; discriminate]].
    + rewrite Ho. rewrite <- !List.app_assoc. reflexivity.
    + eapply (ReportSummary _ _ _ _ _ sc fl mid); try reflexivity; try assumption.
      discriminate.
  - do 2 eexists. split; [reflexivity|]. cbn [dirs out]. split; [exact Hd|].
    split; [|split; [|intros [?|?]; discriminate]].
    + rewrite Ho. rewrite <- !List.app_assoc. reflexivity.
    + eapply (ReportSummary _ _ _ _ _ sc fl mid []); try reflexivity; try assumption.
      discriminate.
Qed.

Lemma Xray_process_directory_spec E d r s :
  ∃ s' new, Xray.process_directory E d r s = (Ok tt, s')
    ∧ dirs s' = dirs s
    ∧ out s' = (out s ++ new)%list
    ∧ run_report d r (Xray.target_set d r s) (dir_present s d) new
    ∧ (dir_present s d = false ∨ Xray.target_set d r s = [] → files s' = files s).
Proof.
  unfold Xray.process_directory. unfold bind at 1, dir_exists at 1.
  destruct (dir_present s d) eqn:Hdir; cbn [negb].
  2:{ do 2 eexists. split; [reflexivity|]. simpl. repeat split.
      now apply ReportMissing. }
  unfold bind at 1. rewrite Xray_discover_run.
  pose proof (Xray_target_loopable d r s) as Hloop.
  destruct (Xray.target_set d r s) as [|f l] eqn:Hts.
  { do 2 eexists. split; [reflexivity|]. simpl. repeat split.
    now apply ReportEmpty. }
  set (n := length (f :: l)).
  unfold bind at 1, print at 1. unfold bind at 1, print at 1. cbn [dirs files out].
  unfold bind at 1.
  match goal with |- context [Xray.loop E d r n (f :: l) 1 0 0 ?s0] =>
    destruct (Xray_loop_spec E d r n (f :: l) Hloop 1 0 0 s0)
      as (sc & fl & s1 & -> & [Hc Hd (mid & Ho & Hp)]) end.
  cbn [dirs out] in Hd, Ho. cbn [fst snd].
  unfold bind at 1, print at 1. unfold bind at 1, print at 1. cbn [dirs files out].
  destruct (0 <? sc)%nat eqn:Hsc; cbn [when].
  - unfold print at 1. cbn [dirs files out].
    do 2 eexists. split; [reflexivity|]. cbn [dirs out]. split; [exact Hd|].
    split; [|split; [|intros [?|?]; discriminate]].
    + rewrite Ho. rewrite <- !List.app_assoc. reflexivity.
    + eapply (ReportSummary _ _ _ _ _ sc fl mid); try reflexivity; try assumption.
      discriminate.
  - do 2 eexists. split; [reflexivity|]. cbn [dirs out]. split; [exact Hd|].
    split; [|split; [|intros [?|?]; discriminate]].
    + rewrite Ho. rewrite <- !List.app_assoc. reflexivity.
    + eapply (ReportSummary _ _ _ _ _ sc fl mid []); try reflexivity; try assumption.
      discriminate.
Qed.

(** ** [main] *)

Lemma Files_main_unavailable E argv s :
  Files.check_ffmpeg E = false →
  ∃ s', Files.main E argv s = (Raise (SystemExit 1), s')
        ∧ dirs s' = dirs s ∧ files s' = files s.
Proof.
  intros H. unfold Files.main. rewrite H. eexists. split; [reflexivity|]. auto.
Qed.

Lemma Files_main_available E argv s :
  Files.check_ffmpeg E = true →
  Files.main E argv s =
    Files.process_directory E (PurePath.Path (argv_directory argv))
      (argv_recursive argv) (Files_started argv s).
Proof.
  intros H. unfold Files.main. rewrite H. cbn [negb].
  unfold Files_started. cbv [bind print]. cbn [dirs files out].
  rewrite <- !List.app_assoc. reflexivity.
Qed.

Lemma Xray_main_unavailable E argv s :
  Xray_tools_ok E = false →
  ∃ s', Xray.main E argv s = (Raise (SystemExit 1), s')
        ∧ dirs s' = dirs s ∧ files s' = files s.
Proof.
  unfold Xray_tools_ok, Xray.main. intros H.
  destruct (fst (Xray.check_tools E)), (snd (Xray.check_tools E));
    try discriminate; eexists; (split; [reflexivity|]); auto.
Qed.

Lemma Xray_main_available E argv s :
  Xray_tools_ok E = true →
  Xray.main E argv s =
    Xray.process_directory E (PurePath.Path (argv_directory argv))
      (argv_recursive argv) (Xray_started argv s).
Proof.
  unfold Xray_tools_ok, Xray.main. intros [-> ->]%andb_true_iff. cbn [negb orb when].
  unfold Xray_started. cbv [bind print ret]. cbn [dirs files out].
  rewrite <- !List.app_assoc. reflexivity.
Qed.

(** * The properties of the specification *)

Lemma process_directory_spec v E d r s :
  ∃ s' new, run_process_directory v E d r s = (Ok tt, s')
    ∧ dirs s' = dirs s
    ∧ out s' = (out s ++ new)%list
    ∧ run_report d r (targets v d r s) (dir_present s d) new
    ∧ (dir_present s d = false ∨ targets v d r s = [] → files s' = files s).
Proof.
  destruct v; [apply Files_process_directory_spec | apply Xray_process_directory_spec].
Qed.

Lemma main_unavailable v E argv s :
  tools_ok v E = false →
  ∃ s', run_main v E argv s = (Raise (SystemExit 1), s')
        ∧ dirs s' = dirs s ∧ files s' = files s.
Proof.
  destruct v; [apply Files_main_unavailable | apply Xray_main_unavailable].
Qed.

Lemma main_available v E argv s :
  tools_ok v E = true →
  run_main v E argv s =
    run_process_directory v E (PurePath.Path (argv_directory argv))
      (argv_recursive argv) (started v argv s).
Proof.
  destruct v; [apply Files_main_available | apply Xray_main_available].
Qed.

Lemma started_same v argv s :
  dirs (started v argv s) = dirs s ∧ files (started v argv s) = files s.
Proof. destruct v; split; reflexivity. Qed.


Lemma dir_present_started v argv d s :
  dir_present (started v argv s) d = dir_present s d.
Proof. destruct v; reflexivity. Qed.



(** C9.  When a required external tool is unavailable, or the target
    directory does not exist, the run ends with the file store as it found
    it: every path holds what it held, so no backup was written, no
    temporary file created and no original modified; the directories are
    the same too. *)
Theorem C9_process_errors_touch_nothing (v : script) (E : env)
    (argv : list string) (s : state) :
  tools_ok v E = false
  ∨ dir_present s (PurePath.Path (argv_directory argv)) = false →
  files (run_main v E argv s).2 = files s
  ∧ dirs (run_main v E argv s).2 = dirs s.
Proof.
  intros H. destruct (tools_ok v E) eqn:Hok.
  - destruct H as [H|H]; [discriminate|].
    rewrite (main_available v E argv s Hok).
    destruct (process_directory_spec v E (PurePath.Path (argv_directory argv))
                (argv_recursive argv) (started v argv s))
      as (s' & new & -> & Hd & _ & _ & Hf).
    destruct (started_same v argv s) as [Hd0 Hf0]. simpl. split.
    + rewrite Hf; [exact Hf0|]. left. now rewrite dir_present_started.
    + congruence.
  - destruct (main_unavailable v E argv s Hok) as (s' & -> & Hd & Hf). auto.
Qed.

Lemma C9_witness :
  (files (run_main FixOggFiles env_no_ffmpeg ["fix_ogg_files.py"; "music"] music).2
     = files music
   ∧ dirs (run_main FixOggFiles env_no_ffmpeg ["fix_ogg_files.py"; "music"] music).2
     = dirs music)
  ∧ (files (run_main FixOggXray good_env ["fix_ogg_xray.py"; "-r"; "nowhere"] music).2
     = files music
   ∧ dirs (run_main FixOggXray good_env ["fix_ogg_xray.py"; "-r"; "nowhere"] music).2
     = dirs music).
Proof.
  split.
  - apply (C9_process_errors_touch_nothing FixOggFiles env_no_ffmpeg). left. reflexivity.
  - apply (C9_process_errors_touch_nothing FixOggXray good_env). right. vm_compute. reflexivity.
Defined.









(** The run of the witness: [b.ogg], the first file, fails; [a.ogg], the
    file after it, is still processed, re-encoded and backed up. *)
Example one_failure_does_not_stop_the_run :
  let run := Files.process_directory env_b_fails ["music"] false music in
  targets FixOggFiles ["music"] false music = [["music"; "b.ogg"]; ["music"; "a.ogg"]]
  ∧ (in_sequence FixOggFiles env_b_fails ["music"] false 2
       [["music"; "b.ogg"]; ["music"; "a.ogg"]] 1
       (State (dirs music) (files music) [MsgFound 2; Rule "-"])).1
    = [(["music"; "b.ogg"], false); (["music"; "a.ogg"], true)]
  ∧ out run.2
    = [MsgFound 2; Rule "-";
       MsgProcessing 1 2 "b.ogg"; MsgToolFailed "ffmpeg";
       MsgProcessing 2 2 "a.ogg"; MsgOk;
       Rule "-"; MsgComplete 1 1;
       Text "Backup files created with .ogg.bak extension";
       Text "Delete them manually after confirming everything works."]
  ∧ files run.2 !! ["music"; "b.ogg"] = Some O2
  ∧ files run.2 !! ["music"; "a.ogg"] = Some T1
  ∧ files run.2 !! ["music"; "a.ogg.bak"] = Some O1.
Proof. vm_compute. repeat split; reflexivity. Qed.

Lemma targets_spec v d r s p :
  p ∈ targets v d r s ↔
    is_Some (files s !! p) ∧ in_scope d r p = true
    ∧ fnmatch_star (PurePath.name p) ".ogg" = true ∧ kept v p = true.
Proof. destruct v; [apply Files_target_spec | apply Xray_target_spec]. Qed.

Lemma targets_NoDup v d r s : NoDup (targets v d r s).
Proof. destruct v; [apply Files_target_NoDup | apply Xray_target_NoDup]. Qed.

(** C7, as the code has it.  Every member of the Target Set has a name
    that matches [*.ogg], so a file [name.ogg.bak] is never in it: no name
    in the Target Set ends with [.bak].  Beyond that the single-stage
    script drops every name that contains [.tmp.]; the two-stage script
    drops every path whose string contains [.bak], and has no rule for
    temporary files (it keeps none in the directory). *)
Theorem C7_target_set_filter (v : script) (d : path) (r : bool) (s : state) (p : path) :
  p ∈ targets v d r s →
  Str.endswith (PurePath.name p) ".ogg" = true
  ∧ Str.endswith (PurePath.name p) ".bak" = false
  ∧ match v with
    | FixOggFiles => Str.contains ".tmp." (PurePath.name p) = false
    | FixOggXray => Str.contains ".bak" (PurePath.str p) = false
    end.
Proof.
  intros (_ & _ & Hogg & Hkeep)%targets_spec. unfold fnmatch_star in Hogg.
  split; [exact Hogg|]. split; [now apply StrFacts.ogg_not_bak|].
  destruct v; simpl in Hkeep.
  - unfold Files.keep in Hkeep. apply andb_true_iff in Hkeep as [_ H].
    now apply negb_true_iff in H.
  - unfold Xray.keep in Hkeep. now apply negb_true_iff in Hkeep.
Qed.

Lemma C7_witness :
  Str.endswith (PurePath.name ["music"; "a.ogg"]) ".ogg" = true
  ∧ Str.endswith (PurePath.name ["music"; "a.ogg"]) ".bak" = false
  ∧ Str.contains ".tmp." (PurePath.name ["music"; "a.ogg"]) = false.
Proof.
  apply (C7_target_set_filter FixOggFiles ["music"] false music ["music"; "a.ogg"]).
  vm_compute. apply list_elem_of_In. simpl. auto.
Defined.

(** C7 as stated fails for the two-stage script: a file [x.tmp.ogg], whose
    name contains the temporary-file marker, is in its Target Set. *)
Lemma C7_xray_takes_tmp_file :
  ["music"; "x.tmp.ogg"] ∈ Xray.target_set ["music"] false leftovers
  ∧ Str.contains ".tmp." (PurePath.name ["music"; "x.tmp.ogg"]) = true
  ∧ ["music"; "x.tmp.ogg"] ∉ Files.target_set ["music"] false leftovers.
Proof.
  split; [|split].
  - vm_compute. apply list_elem_of_In. simpl. auto.
  - reflexivity.
  - vm_compute. intros H%list_elem_of_In. simpl in H. intuition discriminate.
Qed.

Lemma nested_scope (d p : path) (r : bool) :
  nested d p → (in_scope d r p = true ↔ r = true).
Proof. intros [Hb Hc]. destruct r; simpl; rewrite ?Hb, ?Hc; intuition discriminate. Qed.

Lemma snoc_inj (d : path) (a b : string) : (d ++ [a])%list = (d ++ [b])%list → a = b.
Proof. intros H%List.app_inv_head. now injection H. Qed.

(** C8, as the code has it.  (1) A file that lies in a sub-directory of
    the root is in the Target Set only if the run is recursive.  (2) Such a
    file, with a name matching [*.ogg] and not dropped by the script's own
    filter, is in the Target Set exactly when the run is recursive.  (3) For
    a directory that holds exactly [a.ogg], [b.ogg] and [c.wav], neither of
    the two dropped by the filter, a non-recursive run has exactly these two
    files as its Target Set, prints "Found 2" first, and its file headings
    are the two names.  (4) The single-stage filter never drops [a.ogg] or
    [b.ogg]. *)
Theorem C8_recursive_flag :
  (∀ (v : script) (d : path) (r : bool) (s : state) (p : path),
     nested d p → p ∈ targets v d r s → r = true)
  ∧ (∀ (v : script) (d : path) (r : bool) (s : state) (p : path),
     is_Some (files s !! p) → nested d p →
     fnmatch_star (PurePath.name p) ".ogg" = true → kept v p = true →
     (p ∈ targets v d r s ↔ r = true))
  ∧ (∀ (v : script) (E : env) (d : path) (s : state),
       dir_present s d = true →
       holds_exactly s d ["a.ogg"; "b.ogg"; "c.wav"] →
       kept v (d ++ ["a.ogg"])%list = true → kept v (d ++ ["b.ogg"])%list = true →
       targets v d false s ≡ₚ [(d ++ ["a.ogg"])%list; (d ++ ["b.ogg"])%list]
       ∧ ∃ s' rest,
           run_process_directory v E d false s = (Ok tt, s')
           ∧ out s' = (out s ++ MsgFound 2 :: rest)%list
           ∧ processed rest ≡ₚ ["a.ogg"; "b.ogg"])
  ∧ (∀ d, Files.keep (d ++ ["a.ogg"])%list = true ∧ Files.keep (d ++ ["b.ogg"])%list = true).
Proof.
  split; [|split; [|split]].
  - intros v d r s p Hn (_ & Hs & _)%targets_spec. now apply (nested_scope d p r Hn).
  - intros v d r s p Hp Hn Hm Hk. rewrite targets_spec, (nested_scope d p r Hn). tauto.
  - intros v E d s Hdir Hex Hka Hkb.
    assert (Hperm : targets v d false s ≡ₚ [(d ++ ["a.ogg"])%list; (d ++ ["b.ogg"])%list]).
    { apply NoDup_Permutation; [apply targets_NoDup| |].
      - apply NoDup_cons. split; [|apply NoDup_singleton].
        intros H%list_elem_of_singleton%snoc_inj. discriminate.
      - intros p. rewrite targets_spec. simpl. split.
        + intros (Hp & Hc & Hm & _). apply (Hex p Hc) in Hp as (nm & Hnm & ->).
          rewrite PathFacts.name_snoc in Hm
            by (intros ->; apply list_elem_of_In in Hnm; simpl in Hnm; intuition discriminate).
          apply list_elem_of_In in Hnm. simpl in Hnm.
          destruct Hnm as [<- | [<- | [<- | []]]].
          * apply list_elem_of_here.
          * apply list_elem_of_further, list_elem_of_here.
          * discriminate.
        + intros Hin. apply list_elem_of_In in Hin. simpl in Hin.
          destruct Hin as [<- | [<- | []]].
          * split; [|split; [apply is_child_snoc | split; [|exact Hka]]].
            -- apply (Hex _ (is_child_snoc d "a.ogg")). exists "a.ogg".
               split; [apply list_elem_of_here | reflexivity].
            -- now rewrite PathFacts.name_snoc.
          * split; [|split; [apply is_child_snoc | split; [|exact Hkb]]].
            -- apply (Hex _ (is_child_snoc d "b.ogg")). exists "b.ogg".
               split; [apply list_elem_of_further, list_elem_of_here | reflexivity].
            -- now rewrite PathFacts.name_snoc. }
    split; [exact Hperm|].
    assert (Hne : targets v d false s ≠ []).
    { intros Heq. rewrite Heq in Hperm. now apply Permutation_nil_l in Hperm. }
    destruct (process_directory_spec v E d false s) as (s' & new & Hrun & _ & Ho & Hrep & _).
    destruct Hrep as [? _ | _ ? _ | sc fl mid tail _ _ Hnew Hmid Hsum Htail];
      [congruence | contradiction |].
    rewrite (Permutation_length Hperm) in Hnew. simpl in Hnew.
    exists s'. eexists. split; [exact Hrun|]. split; [rewrite Ho, Hnew; reflexivity|].
    change (Rule "-" :: (mid ++ Rule "-" :: MsgComplete sc fl :: tail)%list)
      with ([Rule "-"] ++ mid ++ [Rule "-"; MsgComplete sc fl] ++ tail)%list.
    rewrite !processed_app, Hmid, Htail. simpl. rewrite app_nil_r.
    rewrite Hperm. simpl. unfold rel_path. now rewrite !PathFacts.name_snoc.
  - intros d. unfold Files.keep. now rewrite !PathFacts.name_snoc.
Qed.

Lemma C8_witness :
  (["music"; "live"; "d.ogg"] ∈ targets FixOggFiles ["music"] true library ↔ true = true)
  ∧ (["music"; "live"; "d.ogg"] ∈ targets FixOggXray ["music"] false library ↔ false = true)
  ∧ targets FixOggXray ["music"] false music ≡ₚ [["music"; "a.ogg"]; ["music"; "b.ogg"]].
Proof.
  destruct C8_recursive_flag as (_ & Hnested & Hexample & _).
  assert (Hn : nested ["music"] ["music"; "live"; "d.ogg"]) by (split; reflexivity).
  split; [|split].
  - apply Hnested; [vm_compute; eauto | exact Hn | reflexivity | reflexivity].
  - apply Hnested; [vm_compute; eauto | exact Hn | reflexivity | reflexivity].
  - apply (Hexample FixOggXray good_env ["music"] music); try reflexivity.
    intros p Hc. apply is_child_inv in Hc as [nm ->]. split.
    + intros Hp. exists nm. split; [|reflexivity].
      apply elem_of_listing in Hp. vm_compute in Hp.
      apply list_elem_of_In in Hp. simpl in Hp.
      destruct Hp as [[= <-] | [[= <-] | [[= <-] | []]]];
        apply list_elem_of_In; simpl; auto.
    + intros (nm' & Hnm & [= <-]). apply list_elem_of_In in Hnm. simpl in Hnm.
      destruct Hnm as [<- | [<- | [<- | []]]]; vm_compute; eauto.
Defined.

(** C8 as stated fails: in a recursive run of the single-stage script the
    file [live/x.tmp.ogg], a [*.ogg] file in a sub-directory, is not in the
    Target Set, because the filter drops names that contain [.tmp.]; in a
    recursive run of the two-stage script [old.bak/d.ogg] is not in it,
    because the filter drops paths that contain [.bak]. *)
Lemma C8_nested_file_dropped_by_filter :
  (is_Some (files archive !! ["music"; "live"; "x.tmp.ogg"])
   ∧ nested ["music"] ["music"; "live"; "x.tmp.ogg"]
   ∧ fnmatch_star (PurePath.name ["music"; "live"; "x.tmp.ogg"]) ".ogg" = true
   ∧ ["music"; "live"; "x.tmp.ogg"] ∉ targets FixOggFiles ["music"] true archive)
  ∧ (is_Some (files archive !! ["music"; "old.bak"; "d.ogg"])
     ∧ nested ["music"] ["music"; "old.bak"; "d.ogg"]
     ∧ fnmatch_star (PurePath.name ["music"; "old.bak"; "d.ogg"]) ".ogg" = true
     ∧ ["music"; "old.bak"; "d.ogg"] ∉ targets FixOggXray ["music"] true archive).
Proof.
  split.
  - split; [vm_compute; eauto|]. split; [split; reflexivity|]. split; [reflexivity|].
    vm_compute. intros H%list_elem_of_In. simpl in H. intuition discriminate.
  - split; [vm_compute; eauto|]. split; [split; reflexivity|]. split; [reflexivity|].
    vm_compute. intros H%list_elem_of_In. simpl in H. intuition discriminate.
Qed.

(** ** Backups and the replace step *)

Lemma temp_name_not_bak (p temp : path) :
  PurePath.with_suffix p ".tmp.ogg" = Some temp →
  Str.endswith (PurePath.name temp) ".bak" = false.
Proof.
  intros [_ ->]%PathFacts.with_suffix_Some.
  destruct (PathFacts.name_with_suffix_stem (PurePath.name p)) as (stem & _ & Hws & _).
  rewrite Hws.
  assert (Hlen : String.length (stem +:+ ".tmp.ogg") ≠ 1).
  { rewrite StrFacts.length_app. simpl. lia. }
  rewrite PathFacts.name_snoc by (intros Heq; now rewrite Heq in Hlen).
  apply StrFacts.ogg_not_bak.
  change (stem +:+ ".tmp.ogg") with (stem +:+ (".tmp" +:+ ".ogg")).
  rewrite <- StrFacts.sapp_assoc. apply StrFacts.endswith_app.
Qed.

(** One run creates no file with a [.bak] name except the backup of [p]. *)
Lemma reencode_new_bak v E p bk s q backup :
  PurePath.with_suffix p ".ogg.bak" = Some backup →
  files s !! q = None →
  is_Some (files (run_reencode v E p bk s).2 !! q) →
  Str.endswith (PurePath.name q) ".bak" = true →
  q = backup.
Proof.
  intros Hb Hq Hq' Hbak.
  pose proof (proj1 (PathFacts.with_suffix_Some _ _ _ Hb)) as Hnm.
  destruct (decide (q = backup)) as [|Hqb]; [assumption | exfalso].
  assert (Hqp : files s !! p = None ∨ q ≠ p).
  { destruct (files s !! p) eqn:Hp; [right; congruence | now left]. }
  destruct v; simpl in Hq'.
  - destruct Hqp as [Hp | Hqp].
    { rewrite (Files_reencode_absent E p bk s Hp) in Hq'. simpl in Hq'.
      rewrite Hq in Hq'. now destruct Hq'. }
    destruct (sibling_paths p Hnm) as (temp & backup' & Ht & _).
    assert (Hqt : q ≠ temp).
    { intros ->. rewrite (temp_name_not_bak p temp Ht) in Hbak. discriminate. }
    destruct (Files_reencode_total E p bk s Hnm) as (b & s' & Heq & _ & _ & Hfr).
    rewrite Heq in Hq'. simpl in Hq'.
    rewrite (Hfr q temp backup Ht Hb Hqp Hqt Hqb), Hq in Hq'. now destruct Hq'.
  - destruct Hqp as [Hp | Hqp].
    { rewrite (Xray_reencode_absent E p bk s Hp) in Hq'. simpl in Hq'.
      rewrite Hq in Hq'. now destruct Hq'. }
    destruct (Xray_reencode_total E p bk s) as (b & s' & Heq & _ & _ & Hfr).
    rewrite Heq in Hq'. simpl in Hq'.
    rewrite (Hfr q backup Hb Hqp Hqb), Hq in Hq'. now destruct Hq'.
Qed.

(** C6.  Processing a file twice in succession, with either script and
    whatever the tools and the file system do in each run, creates no file
    with a [.bak] name other than the one backup path of that file: every
    such file that is there afterwards and was not there before is
    [with_suffix('.ogg.bak')] of the file, and for a file [name.ogg] that
    path is [name.ogg.bak]. *)
Theorem C6_one_backup_path (v : script) (E1 E2 : env) (p : path) (bk : bool)
    (s : state) (q backup : path) :
  PurePath.with_suffix p ".ogg.bak" = Some backup →
  let s1 := (run_reencode v E1 p bk s).2 in
  let s2 := (run_reencode v E2 p bk s1).2 in
  files s !! q = None → is_Some (files s2 !! q) →
  Str.endswith (PurePath.name q) ".bak" = true →
  q = backup
  ∧ (Str.endswith (PurePath.name p) ".ogg" = true → PurePath.name p ≠ ".ogg" →
     backup = sibling_bak p).
Proof.
  intros Hb s1 s2 Hq Hq2 Hbak. split.
  - destruct (files s1 !! q) eqn:Hq1.
    + apply (reencode_new_bak v E1 p bk s q backup); auto.
    + apply (reencode_new_bak v E2 p bk s1 q backup); auto.
  - intros Hogg Hne. rewrite (PathFacts.backup_path_ogg p Hogg Hne) in Hb. congruence.
Qed.

Lemma C6_witness :
  ["music"; "a.ogg.bak"] = ["music"; "a.ogg.bak"]
  ∧ (Str.endswith (PurePath.name ["music"; "a.ogg"]) ".ogg" = true →
     PurePath.name ["music"; "a.ogg"] ≠ ".ogg" →
     ["music"; "a.ogg.bak"] = sibling_bak ["music"; "a.ogg"]).
Proof.
  apply (C6_one_backup_path FixOggFiles good_env good_env ["music"; "a.ogg"] true music).
  - reflexivity.
  - vm_compute. reflexivity.
  - vm_compute. eauto.
  - reflexivity.
Defined.

(** After two runs there is one backup, under either policy: the
    single-stage script has refreshed it, the two-stage script has kept the
    first. *)
Example two_runs_one_backup :
  let twice (f : path → bool → M bool) :=
    map_to_list (files (f ["music"; "a.ogg"] true
                          (f ["music"; "a.ogg"] true (store [(["music"; "a.ogg"], O1)] [["music"]])).2).2) in
  twice (Files.reencode_ogg good_env)
    = [(["music"; "a.ogg.bak"], T1); (["music"; "a.ogg"], T1)]
  ∧ twice (Xray.reencode_ogg good_env)
    = [(["music"; "a.ogg.bak"], O1); (["music"; "a.ogg"], T1)].
Proof. vm_compute. split; reflexivity. Qed.

(** An older backup is there already: the single-stage script replaces it
    by the present content of the file, the two-stage script keeps it. *)
Example existing_backup_policies :
  files (Files.reencode_ogg good_env ["music"; "a.ogg"] true rerun).2
    !! ["music"; "a.ogg.bak"] = Some O1
  ∧ files (Xray.reencode_ogg good_env ["music"; "a.ogg"] true rerun).2
    !! ["music"; "a.ogg.bak"] = Some OLD.
Proof. vm_compute. split; reflexivity. Qed.

Lemma run_reencode_cases_files E p bk s orig :
  PurePath.name p ≠ "" → files s !! p = Some orig →
  ∃ temp backup b s',
    PurePath.with_suffix p ".tmp.ogg" = Some temp
    ∧ PurePath.with_suffix p ".ogg.bak" = Some backup
    ∧ Files.reencode_ogg E p bk s = (Ok b, s')
    ∧ files s' !! temp = None
    ∧ (returncode (ffmpeg_encode E p orig) ≠ 0%Z →
         b = false ∧ files s' !! p = Some orig
         ∧ files s' !! backup = files s !! backup)
    ∧ (files s' !! p = Some orig ∧ b = false
       ∨ returncode (ffmpeg_encode E p orig) = 0%Z
         ∧ (bk = true → files s' !! backup = Some orig)
         ∧ (b = true ∧ is_Some (staged FixOggFiles E p orig s)
            ∧ files s' !! p = staged FixOggFiles E p orig s
            ∨ b = false ∧ files s' !! p = None)).
Proof.
  intros Hnm Hp.
  destruct (sibling_paths p Hnm) as (temp & backup & Ht & Hb & H1 & H2 & H3).
  destruct (Files_reencode_cases E p bk s temp backup orig Hp Ht Hb H1 H2 H3)
    as (b & s' & Heq & _ & _ & _ & Htmp & Hrc & Hcases).
  exists temp, backup, b, s'. unfold staged. rewrite Ht. auto 10.
Qed.

(** What lies at the temporary path after the ffmpeg run: its output, or
    what was there before when it wrote nothing. *)
Lemma staged_files E p orig s temp :
  PurePath.with_suffix p ".tmp.ogg" = Some temp →
  staged FixOggFiles E p orig s
  = match transform_output FixOggFiles E p orig with
    | Some t => Some t
    | None => files s !! temp
    end.
Proof.
  intros Ht. unfold staged, after_run, transform_output. rewrite Ht.
  destruct (output (ffmpeg_encode E p orig)); [apply lookup_insert_eq | reflexivity].
Qed.

(** What a run with result True has put at the file's own path: the output
    that the external transform wrote, or, in the single-stage script when
    ffmpeg reports exit status 0 and wrote nothing, the file that lay at the
    temporary path before the run. *)
Lemma success_content v E p bk s orig :
  PurePath.name p ≠ "" → files s !! p = Some orig →
  (run_reencode v E p bk s).1 = Ok true →
  (∃ t, transform_output v E p orig = Some t
        ∧ files (run_reencode v E p bk s).2 !! p = Some t)
  ∨ (v = FixOggFiles ∧ transform_output v E p orig = None
     ∧ returncode (ffmpeg_encode E p orig) = 0%Z
     ∧ ∃ temp stale, PurePath.with_suffix p ".tmp.ogg" = Some temp
                     ∧ files s !! temp = Some stale
                     ∧ files (run_reencode v E p bk s).2 !! p = Some stale).
Proof.
  intros Hnm Hp. destruct v; simpl.
  - destruct (run_reencode_cases_files E p bk s orig Hnm Hp)
      as (temp & backup & b & s' & Ht & _ & -> & _ & _ & Hcases). simpl.
    intros [= ->].
    destruct Hcases as [[_ ?] | (Hrc & _ & [(_ & Hout & Hnew) | [? _]])];
      try discriminate.
    rewrite (staged_files E p orig s temp Ht) in Hout, Hnew. simpl in Hout, Hnew.
    destruct (output (ffmpeg_encode E p orig)) as [t|] eqn:Ho.
    + left. eauto.
    + right. destruct Hout as [stale Hstale]. rewrite Hstale in Hnew.
      repeat split; try assumption; try reflexivity. eauto.
  - destruct (PurePath.with_suffix p ".ogg.bak") as [backup|] eqn:Hb.
    2:{ apply PathFacts.with_suffix_named with (suf := ".ogg.bak") in Hnm. congruence. }
    assert (Hbp : backup ≠ p).
    { eapply PathFacts.with_suffix_neq; [| |exact Hb]; discriminate. }
    destruct (Xray_reencode_cases E p bk s backup orig Hp Hb Hbp)
      as (b & s' & -> & _ & _ & _ & Hcases). simpl.
    destruct (output (ffmpeg_decode E p orig)) as [wav|].
    2:{ destruct Hcases as [-> _]. discriminate. }
    destruct (output (oggenc_encode E p wav)) as [new|].
    2:{ destruct Hcases as [-> _]. discriminate. }
    destruct Hcases as (_ & -> & Hnew). rewrite Hnew.
    destruct (replace_copy (io E p)); simpl; try discriminate. intros _. left. eauto.
Qed.

(** C5, as the code has it.  For a file [name.ogg] (the name not being
    [.ogg] alone) processed with backup requested and no backup present,
    provided the backup copy itself does not fail in the two-stage script
    (which ignores such a failure): the original bytes are at
    [name.ogg.bak] whenever the original has been replaced or removed, so
    the copy comes first; and after a run with result True the backup holds
    the original bytes and the file holds the output that the external
    transform wrote.  One case apart: when the transform wrote no output
    and the result is True all the same, the script is the single-stage
    one, ffmpeg reported exit status 0, and the file holds what lay at the
    temporary path before the run. *)
Theorem C5_backup_before_replace (v : script) (E : env) (p : path) (s : state)
    (orig : bytes) :
  Str.endswith (PurePath.name p) ".ogg" = true → PurePath.name p ≠ ".ogg" →
  files s !! p = Some orig →
  files s !! sibling_bak p = None →
  (v = FixOggXray → backup_copy (io E p) = CopyOk) →
  let run := run_reencode v E p true s in
  (files run.2 !! p ≠ Some orig → files run.2 !! sibling_bak p = Some orig)
  ∧ (run.1 = Ok true →
       files run.2 !! sibling_bak p = Some orig
       ∧ (∀ t, transform_output v E p orig = Some t → files run.2 !! p = Some t)
       ∧ (transform_output v E p orig = None →
          v = FixOggFiles ∧ returncode (ffmpeg_encode E p orig) = 0%Z
          ∧ ∃ temp stale, PurePath.with_suffix p ".tmp.ogg" = Some temp
                          ∧ files s !! temp = Some stale
                          ∧ files run.2 !! p = Some stale)).
Proof.
  intros Hogg Hne Hp Hnb Hcopy run.
  pose proof (StrFacts.ogg_nonempty _ Hogg) as Hnm.
  pose proof (PathFacts.backup_path_ogg p Hogg Hne) as Hb.
  assert (Hbak : (files run.2 !! p ≠ Some orig → files run.2 !! sibling_bak p = Some orig)
                 ∧ (run.1 = Ok true → files run.2 !! sibling_bak p = Some orig)).
  { subst run. destruct v; simpl.
    - destruct (run_reencode_cases_files E p true s orig Hnm Hp)
        as (temp & backup & b & s' & _ & Hb' & -> & _ & _ & Hcases).
      rewrite Hb in Hb'. injection Hb' as <-. simpl.
      destruct Hcases as [[Hsame ->] | (_ & Hbk & [(-> & Hout & Hnew) | [-> Hgone]])].
      + split; [congruence | discriminate].
      + split; auto.
      + split; [auto | discriminate].
    - assert (Hbp : sibling_bak p ≠ p).
      { eapply PathFacts.with_suffix_neq; [| |exact Hb]; discriminate. }
      destruct (Xray_reencode_cases E p true s (sibling_bak p) orig Hp Hb Hbp)
        as (b & s' & -> & _ & _ & _ & Hcases). simpl.
      destruct (output (ffmpeg_decode E p orig)) as [wav|].
      2:{ destruct Hcases as [-> ->]. split; [congruence | discriminate]. }
      destruct (output (oggenc_encode E p wav)) as [new|].
      2:{ destruct Hcases as [-> ->]. split; [congruence | discriminate]. }
      destruct Hcases as (Hbak & -> & Hnew).
      rewrite Hnb, (Hcopy eq_refl) in Hbak. simpl in Hbak. auto. }
  destruct Hbak as [Hfirst Hafter]. split; [exact Hfirst|].
  intros Hok. split; [exact (Hafter Hok)|]. subst run.
  destruct (success_content v E p true s orig Hnm Hp Hok)
    as [(t & Ht & Hnew) | (Hv & Hnone & Hrc & Hstale)].
  - split; [intros t' Ht'; congruence | intros Hnone; congruence].
  - split; [intros t' Ht'; congruence | intros _; auto].
Qed.

Lemma C5_witness :
  let run := run_reencode FixOggXray good_env ["music"; "a.ogg"] true music in
  (files run.2 !! ["music"; "a.ogg"] ≠ Some O1 →
     files run.2 !! sibling_bak ["music"; "a.ogg"] = Some O1)
  ∧ (run.1 = Ok true →
       files run.2 !! sibling_bak ["music"; "a.ogg"] = Some O1
       ∧ (∀ t, transform_output FixOggXray good_env ["music"; "a.ogg"] O1 = Some t →
               files run.2 !! ["music"; "a.ogg"] = Some t)
       ∧ (transform_output FixOggXray good_env ["music"; "a.ogg"] O1 = None →
          FixOggXray = FixOggFiles
          ∧ returncode (ffmpeg_encode good_env ["music"; "a.ogg"] O1) = 0%Z
          ∧ ∃ temp stale, PurePath.with_suffix ["music"; "a.ogg"] ".tmp.ogg" = Some temp
                          ∧ files music !! temp = Some stale
                          ∧ files run.2 !! ["music"; "a.ogg"] = Some stale)).
Proof.
  apply (C5_backup_before_replace FixOggXray good_env ["music"; "a.ogg"] music O1).
  - reflexivity.
  - discriminate.
  - vm_compute. reflexivity.
  - vm_compute. reflexivity.
  - reflexivity.
Defined.

(** C5 as stated fails for the two-stage script: the backup copy is
    refused, the run still succeeds and replaces the file, and no backup
    exists afterwards. *)
Lemma C5_success_without_backup :
  let run := Xray.reencode_ogg env_backup_refused ["music"; "a.ogg"] true music in
  files music !! ["music"; "a.ogg.bak"] = None
  ∧ run.1 = Ok true
  ∧ files run.2 !! ["music"; "a.ogg"] = Some T1
  ∧ files run.2 !! ["music"; "a.ogg.bak"] = None.
Proof. vm_compute. repeat split; reflexivity. Qed.

(** C4, as the code has it.  The replace step is not atomic.  After the
    per-file procedure the file's own path holds one of four things.
    (1) The result is True and it holds the output that the external
    transform wrote.  (2) The result is True, the script is the single-stage
    one, ffmpeg reported exit status 0 and wrote nothing, and it holds the
    file that lay at the temporary path before the run.  (3) The result is
    False and it holds the untouched original.  (4) The result is False
    because the replace step itself broke, and then: in the single-stage
    script (remove, then rename) the path holds no file at all, the original
    bytes being at the backup path when a backup was asked for; in the
    two-stage script (copy over the original) the copy broke off after [n]
    bytes and the path holds that truncated beginning of the output. *)
Theorem C4_replace_outcomes (v : script) (E : env) (p : path) (bk : bool)
    (s : state) (orig : bytes) :
  PurePath.name p ≠ "" →
  files s !! p = Some orig →
  let run := run_reencode v E p bk s in
  (run.1 = Ok true
   ∧ ∃ t, transform_output v E p orig = Some t ∧ files run.2 !! p = Some t)
  ∨ (run.1 = Ok true
     ∧ v = FixOggFiles ∧ transform_output v E p orig = None
     ∧ returncode (ffmpeg_encode E p orig) = 0%Z
     ∧ ∃ temp stale, PurePath.with_suffix p ".tmp.ogg" = Some temp
                     ∧ files s !! temp = Some stale
                     ∧ files run.2 !! p = Some stale)
  ∨ (run.1 = Ok false ∧ files run.2 !! p = Some orig)
  ∨ (run.1 = Ok false
     ∧ match v with
       | FixOggFiles =>
           files run.2 !! p = None
           ∧ (bk = true →
              ∃ backup, PurePath.with_suffix p ".ogg.bak" = Some backup
                        ∧ files run.2 !! backup = Some orig)
       | FixOggXray =>
           ∃ n new, replace_copy (io E p) = CopyTruncated n
                    ∧ transform_output v E p orig = Some new
                    ∧ files run.2 !! p = Some (List.firstn n new)
       end).
Proof.
  intros Hnm Hp run. subst run.
  destruct ((run_reencode v E p bk s).1) as [[|]|e] eqn:Hres.
  - destruct (success_content v E p bk s orig Hnm Hp Hres) as [Hnew | Hstale].
    + left. auto.
    + right. left. destruct Hstale as (? & ? & ? & ?). auto.
  - right. right. destruct v; simpl in *.
    + destruct (run_reencode_cases_files E p bk s orig Hnm Hp)
        as (temp & backup & b & s' & _ & Hb & Heq & _ & _ & Hcases).
      rewrite Heq in Hres |- *. simpl in *. injection Hres as ->.
      destruct Hcases as [[Hsame _] | (_ & Hbk & [(? & _) | [_ Hgone]])];
        try discriminate.
      * left. auto.
      * right. split; [reflexivity|]. split; [exact Hgone|]. eauto.
    + destruct (PurePath.with_suffix p ".ogg.bak") as [backup|] eqn:Hb.
      2:{ apply PathFacts.with_suffix_named with (suf := ".ogg.bak") in Hnm. congruence. }
      assert (Hbp : backup ≠ p).
      { eapply PathFacts.with_suffix_neq; [| |exact Hb]; discriminate. }
      destruct (Xray_reencode_cases E p bk s backup orig Hp Hb Hbp)
        as (b & s' & Heq & _ & _ & _ & Hcases).
      rewrite Heq in Hres |- *. simpl in *. injection Hres as ->.
      destruct (output (ffmpeg_decode E p orig)) as [wav|].
      2:{ destruct Hcases as [_ ->]. left. auto. }
      destruct (output (oggenc_encode E p wav)) as [new|].
      2:{ destruct Hcases as [_ ->]. left. auto. }
      destruct Hcases as (_ & Hb' & Hnew). rewrite Hnew.
      destruct (replace_copy (io E p)) as [| |n]; simpl in *; try discriminate.
      * left. auto.
      * right. split; [reflexivity|]. exists n, new. auto.
  - exfalso. destruct v; simpl in *.
    + destruct (Files_reencode_total E p bk s Hnm) as (b & s' & Heq & _).
      rewrite Heq in Hres. discriminate.
    + destruct (Xray_reencode_total E p bk s) as (b & s' & Heq & _).
      rewrite Heq in Hres. discriminate.
Qed.

Lemma C4_witness :
  let run := run_reencode FixOggFiles env_rename_fails ["music"; "a.ogg"] true music in
  (run.1 = Ok true
   ∧ ∃ t, transform_output FixOggFiles env_rename_fails ["music"; "a.ogg"] O1 = Some t
          ∧ files run.2 !! ["music"; "a.ogg"] = Some t)
  ∨ (run.1 = Ok true
     ∧ FixOggFiles = FixOggFiles
     ∧ transform_output FixOggFiles env_rename_fails ["music"; "a.ogg"] O1 = None
     ∧ returncode (ffmpeg_encode env_rename_fails ["music"; "a.ogg"] O1) = 0%Z
     ∧ ∃ temp stale, PurePath.with_suffix ["music"; "a.ogg"] ".tmp.ogg" = Some temp
                     ∧ files music !! temp = Some stale
                     ∧ files run.2 !! ["music"; "a.ogg"] = Some stale)
  ∨ (run.1 = Ok false ∧ files run.2 !! ["music"; "a.ogg"] = Some O1)
  ∨ (run.1 = Ok false
     ∧ files run.2 !! ["music"; "a.ogg"] = None
     ∧ (true = true →
        ∃ backup, PurePath.with_suffix ["music"; "a.ogg"] ".ogg.bak" = Some backup
                  ∧ files run.2 !! backup = Some O1)).
Proof.
  apply (C4_replace_outcomes FixOggFiles env_rename_fails ["music"; "a.ogg"] true music O1).
  - discriminate.
  - vm_compute. reflexivity.
Defined.

(** C4 as stated fails.  Single-stage script, the rename fails after the
    original was removed: the path holds neither the transformed file nor
    the original, it holds nothing.  Two-stage script, the copy over the
    original breaks off after two bytes: the path holds a truncated file. *)
Lemma C4_replace_is_not_atomic :
  (let run := Files.reencode_ogg env_rename_fails ["music"; "a.ogg"] true music in
   files music !! ["music"; "a.ogg"] = Some O1
   ∧ transform_output FixOggFiles env_rename_fails ["music"; "a.ogg"] O1 = Some T1
   ∧ run.1 = Ok false
   ∧ files run.2 !! ["music"; "a.ogg"] = None)
  ∧ (let run := Xray.reencode_ogg env_replace_truncated ["music"; "a.ogg"] true music in
     transform_output FixOggXray env_replace_truncated ["music"; "a.ogg"] O1 = Some T1
     ∧ run.1 = Ok false
     ∧ files run.2 !! ["music"; "a.ogg"] = Some [x4f; x67]
     ∧ [x4f; x67] ≠ T1 ∧ [x4f; x67] ≠ O1).
Proof. vm_compute. repeat split; discriminate. Qed.

(** Outcome (2) at work.  Single-stage script, a temporary file of an
    interrupted run lies beside [a.ogg], and ffmpeg reports exit status 0
    without writing anything: the result is True and [a.ogg] holds the old
    temporary file. *)
Example stale_temporary_file_is_promoted :
  let run := Files.reencode_ogg env_no_output ["music"; "a.ogg"] true leftovers_a in
  transform_output FixOggFiles env_no_output ["music"; "a.ogg"] O1 = None
  ∧ files leftovers_a !! ["music"; "a.tmp.ogg"] = Some OLD
  ∧ run.1 = Ok true
  ∧ files run.2 !! ["music"; "a.ogg"] = Some OLD
  ∧ files run.2 !! ["music"; "a.ogg.bak"] = Some O1.
Proof. vm_compute. repeat split; reflexivity. Qed.

(** C10.  Two-stage script, backup requested and none present, both tools
    deliver, the copy over the original succeeds, but the backup copy
    raises: the error is swallowed, the original is replaced by the output
    and the result is Success.  The backup path holds what the failed copy
    left: nothing when the destination could not be opened, else the
    beginning it managed to write.  So Success does not imply that a backup
    of the original exists. *)
Theorem C10_backup_failure_swallowed (E : env) (p backup : path) (s : state)
    (orig wav new : bytes) :
  files s !! p = Some orig →
  PurePath.with_suffix p ".ogg.bak" = Some backup →
  files s !! backup = None →
  output (ffmpeg_decode E p orig) = Some wav →
  output (oggenc_encode E p wav) = Some new →
  replace_copy (io E p) = CopyOk →
  backup_copy (io E p) ≠ CopyOk →
  ∃ s', Xray.reencode_ogg E p true s = (Ok true, s')
        ∧ files s' !! p = Some new
        ∧ files s' !! backup = xray_backup true None (backup_copy (io E p)) orig
        ∧ (backup_copy (io E p) = CopyRefused → files s' !! backup = None).
Proof.
  intros Hp Hb Hnb Hd He Hrep Hfault.
  assert (Hbp : backup ≠ p).
  { eapply PathFacts.with_suffix_neq; [| |exact Hb]; discriminate. }
  destruct (Xray_reencode_cases E p true s backup orig Hp Hb Hbp)
    as (b & s' & Heq & _ & _ & _ & Hcases).
  rewrite Hd, He, Hrep, Hnb in Hcases. simpl in Hcases.
  destruct Hcases as (Hbak & -> & Hnew).
  exists s'. repeat split; try assumption.
  intros Href. rewrite Hbak, Href. reflexivity.
Qed.

Lemma C10_witness :
  ∃ s', Xray.reencode_ogg env_backup_refused ["music"; "a.ogg"] true music = (Ok true, s')
        ∧ files s' !! ["music"; "a.ogg"] = Some T1
        ∧ files s' !! ["music"; "a.ogg.bak"]
          = xray_backup true None (backup_copy (io env_backup_refused ["music"; "a.ogg"])) O1
        ∧ (backup_copy (io env_backup_refused ["music"; "a.ogg"]) = CopyRefused →
           files s' !! ["music"; "a.ogg.bak"] = None).
Proof.
  apply (C10_backup_failure_swallowed env_backup_refused ["music"; "a.ogg"]
           ["music"; "a.ogg.bak"] music O1 W1 T1).
  - vm_compute. reflexivity.
  - reflexivity.
  - vm_compute. reflexivity.
  - reflexivity.
  - reflexivity.
  - reflexivity.
  - discriminate.
Defined.

(** ** Failures of the external transform *)

(** What each script does detect: the single-stage script a non-zero exit
    status, the two-stage script a missing output file.  Then the result is
    a failure, the original is untouched and nothing temporary remains. *)
Lemma detected_tool_failure_is_contained (E : env) (p : path) (bk : bool)
    (s : state) (orig : bytes) :
  PurePath.name p ≠ "" → files s !! p = Some orig →
  (returncode (ffmpeg_encode E p orig) ≠ 0%Z →
     ∃ temp s', PurePath.with_suffix p ".tmp.ogg" = Some temp
                ∧ Files.reencode_ogg E p bk s = (Ok false, s')
                ∧ files s' !! p = Some orig ∧ files s' !! temp = None)
  ∧ (transform_output FixOggXray E p orig = None →
     ∃ s', Xray.reencode_ogg E p bk s = (Ok false, s') ∧ files s' = files s).
Proof.
  intros Hnm Hp. split.
  - intros Hrc.
    destruct (run_reencode_cases_files E p bk s orig Hnm Hp)
      as (temp & backup & b & s' & Ht & _ & Heq & Htmp & Hfail & _).
    destruct (Hfail Hrc) as (-> & Hsame & _). eauto 6.
  - intros Hout. simpl in Hout.
    destruct (PurePath.with_suffix p ".ogg.bak") as [backup|] eqn:Hb.
    2:{ apply PathFacts.with_suffix_named with (suf := ".ogg.bak") in Hnm. congruence. }
    assert (Hbp : backup ≠ p).
    { eapply PathFacts.with_suffix_neq; [| |exact Hb]; discriminate. }
    destruct (Xray_reencode_cases E p bk s backup orig Hp Hb Hbp)
      as (b & s' & Heq & _ & _ & _ & Hcases).
    destruct (output (ffmpeg_decode E p orig)) as [wav|].
    + rewrite Hout in Hcases. destruct Hcases as [-> Hf]. eauto.
    + destruct Hcases as [-> Hf]. eauto.
Qed.

(** C2 at its failing inputs.  Two-stage script: the decoder reports exit
    status 1 and leaves a wav file; the status is never looked at, the
    result is Success and the original is replaced.  Single-stage script:
    ffmpeg reports exit status 0 and writes no output file; the existence of
    the output is never looked at, the original is removed before the
    rename fails, and the result is a failure with the original gone from
    its path (its bytes are in the backup). *)
Theorem C2_undetected_tool_failure :
  (let run := Xray.reencode_ogg env_decode_status ["music"; "a.ogg"] true music in
   returncode (ffmpeg_decode env_decode_status ["music"; "a.ogg"] O1) = 1%Z
   ∧ run.1 = Ok true
   ∧ files run.2 !! ["music"; "a.ogg"] = Some T1)
  ∧ (let run := Files.reencode_ogg env_no_output ["music"; "a.ogg"] true music in
     ffmpeg_encode env_no_output ["music"; "a.ogg"] O1 = RunResult 0 None
     ∧ files music !! ["music"; "a.tmp.ogg"] = None
     ∧ run.1 = Ok false
     ∧ files run.2 !! ["music"; "a.ogg"] = None
     ∧ files run.2 !! ["music"; "a.ogg.bak"] = Some O1).
Proof. vm_compute. repeat split; reflexivity. Qed.

(** * Further properties of the two scripts *)

(** ** The per-file procedure, step by step *)

(** Symbolic execution of [Files.reencode_ogg] up to the end of the ffmpeg
    run; [m1] is the store after the run. *)
Ltac files_exec E p orig temp Hp Ht Hb :=
  unfold Files.reencode_ogg; rewrite Ht, Hb; repeat wp_step;
  apply wp_run_ffmpeg with (orig := orig); [exact Hp|]; wp_simpl;
  let m1 := fresh "m1" in
  let Hm1p := fresh "Hm1p" in
  let Hm1q := fresh "Hm1q" in
  set (m1 := after_run (ffmpeg_encode E p orig) temp (files _)) in *;
  assert (Hm1p : m1 !! p = Some orig)
    by (unfold m1; rewrite after_run_other by congruence; exact Hp);
  assert (Hm1q : ∀ q, q ≠ temp → m1 !! q = files _ !! q)
    by (intros ? ?; unfold m1; now apply after_run_other).



(** The sibling paths of a file whose temporary and backup paths are known. *)
Lemma siblings_distinct (p temp backup : path) :
  PurePath.with_suffix p ".tmp.ogg" = Some temp →
  PurePath.with_suffix p ".ogg.bak" = Some backup →
  temp ≠ p ∧ backup ≠ p ∧ temp ≠ backup.
Proof.
  intros Ht Hb.
  pose proof (proj1 (PathFacts.with_suffix_Some _ _ _ Ht)) as Hnm.
  destruct (sibling_paths p Hnm) as (t' & b' & Ht' & Hb' & H).
  rewrite Ht in Ht'. rewrite Hb in Hb'. injection Ht' as <-. injection Hb' as <-.
  exact H.
Qed.

(** X2: a failed ffmpeg run is undone.  When ffmpeg reports a non-zero exit
    status for a file that is there, the single-stage script returns False
    and the store is the one it started from without the temporary path:
    the original, every backup and every other file are as they were, and
    neither the partial output nor an older temporary file is left. *)
Theorem Files_failed_run_is_undone (E : env) (p : path) (bk : bool) (s : state)
    (temp backup : path) (orig : bytes) :
  files s !! p = Some orig →
  PurePath.with_suffix p ".tmp.ogg" = Some temp →
  PurePath.with_suffix p ".ogg.bak" = Some backup →
  returncode (ffmpeg_encode E p orig) ≠ 0%Z →
  (Files.reencode_ogg E p bk s).1 = Ok false
  ∧ files (Files.reencode_ogg E p bk s).2 = delete temp (files s)
  ∧ dirs (Files.reencode_ogg E p bk s).2 = dirs s.
Proof.
  intros Hp Ht Hb Hrc.
  destruct (siblings_distinct p temp backup Ht Hb) as (Htp & Hbp & Htb).
  destruct (Files_reencode_cases E p bk s temp backup orig Hp Ht Hb Htp Hbp Htb)
    as (b & s' & -> & Hd & _ & Hfr & Htmp & Hfail & _).
  destruct (Hfail Hrc) as (-> & Hsame & Hbak). simpl.
  split; [reflexivity|]. split; [|exact Hd].
  apply map_eq. intros q.
  destruct (decide (q = temp)) as [->|Hqt]; [now rewrite lookup_delete_eq|].
  rewrite lookup_delete_ne by congruence.
  destruct (decide (q = p)) as [->|Hqp]; [congruence|].
  destruct (decide (q = backup)) as [->|Hqb]; [assumption|].
  now apply Hfr.
Qed.

Lemma Files_failed_run_is_undone_witness :
  (Files.reencode_ogg env_a_fails ["music"; "a.ogg"] true leftovers_a).1 = Ok false
  ∧ files (Files.reencode_ogg env_a_fails ["music"; "a.ogg"] true leftovers_a).2
    = delete ["music"; "a.tmp.ogg"] (files leftovers_a)
  ∧ dirs (Files.reencode_ogg env_a_fails ["music"; "a.ogg"] true leftovers_a).2
    = dirs leftovers_a.
Proof.
  apply (Files_failed_run_is_undone env_a_fails ["music"; "a.ogg"] true leftovers_a
           ["music"; "a.tmp.ogg"] ["music"; "a.ogg.bak"] O1).
  - vm_compute. reflexivity.
  - reflexivity.
  - reflexivity.
  - vm_compute. discriminate.
Defined.



Ltac by_path q p temp backup :=
  destruct (decide (q = p)) as [->|?];
  [|destruct (decide (q = temp)) as [->|?];
    [|destruct (decide (q = backup)) as [->|?]]].

(** X4: the store after a successful run.  When the single-stage procedure
    returns True, ffmpeg had reported exit status 0 and the store is the
    initial one with exactly these changes: the file holds [t], the
    temporary path is empty, and, if a backup was asked for, the backup path
    holds the original bytes (an older backup is overwritten).  Nothing else
    is touched.  Here [t] is the output file that ffmpeg wrote; or, when
    ffmpeg wrote none, the file that lay at the temporary path before the
    run. *)
Theorem Files_store_after_success (E : env) (p : path) (bk : bool) (s : state)
    (temp backup : path) (orig : bytes) :
  files s !! p = Some orig →
  PurePath.with_suffix p ".tmp.ogg" = Some temp →
  PurePath.with_suffix p ".ogg.bak" = Some backup →
  (Files.reencode_ogg E p bk s).1 = Ok true →
  returncode (ffmpeg_encode E p orig) = 0%Z
  ∧ ∃ t, (transform_output FixOggFiles E p orig = Some t
          ∨ transform_output FixOggFiles E p orig = None ∧ files s !! temp = Some t)
         ∧ files (Files.reencode_ogg E p bk s).2
           = <[p := t]> (delete temp (if bk then <[backup := orig]> (files s) else files s)).
Proof.
  intros Hp Ht Hb Hok.
  destruct (siblings_distinct p temp backup Ht Hb) as (Htp & Hbp & Htb).
  assert (p ≠ temp) by congruence. assert (p ≠ backup) by congruence.
  assert (backup ≠ temp) by congruence.
  split.
  { destruct (Files_reencode_cases E p bk s temp backup orig Hp Ht Hb Htp Hbp Htb)
      as (b & s' & Heq & _ & _ & _ & _ & Hfail & _).
    rewrite Heq in Hok. simpl in Hok. injection Hok as ->.
    destruct (Z.eq_dec (returncode (ffmpeg_encode E p orig)) 0%Z) as [|Hrc]; [assumption|].
    destruct (Hfail Hrc) as [? _]. discriminate. }
  assert (Hstore :
    ∃ t, after_run (ffmpeg_encode E p orig) temp (files s) !! temp = Some t
         ∧ files (Files.reencode_ogg E p bk s).2
           = <[p := t]> (delete temp
                (if bk then <[backup := orig]> (files s) else files s))).
  { revert Hok.
    match goal with |- (?m ?st).1 = _ → ?C =>
      cut (wp m st (fun r s' => r = Ok true →
             ∃ t, after_run (ffmpeg_encode E p orig) temp (files s) !! temp = Some t
                  ∧ files s' = <[p := t]> (delete temp
                       (if bk then <[backup := orig]> (files s) else files s))));
      [exact id|] end.
    files_exec E p orig temp Hp Ht Hb. clearbody m1.
    repeat wp_step.
    all: intros Hok; try discriminate.
    all: eexists; split; [eassumption|].
    all: apply map_eq; intros q; by_path q p temp backup; norm_goal;
         rewrite ?Hm1q by congruence; congruence. }
  destruct Hstore as (t & Hat & Hfiles). exists t. split; [|exact Hfiles].
  unfold after_run in Hat. simpl.
  destruct (output (ffmpeg_encode E p orig)) as [o|].
  - left. rewrite lookup_insert_eq in Hat. exact Hat.
  - right. auto.
Qed.

Lemma Files_store_after_success_witness :
  returncode (ffmpeg_encode env_no_output ["music"; "a.ogg"] O1) = 0%Z
  ∧ ∃ t, (transform_output FixOggFiles env_no_output ["music"; "a.ogg"] O1 = Some t
          ∨ transform_output FixOggFiles env_no_output ["music"; "a.ogg"] O1 = None
            ∧ files leftovers_a !! ["music"; "a.tmp.ogg"] = Some t)
         ∧ files (Files.reencode_ogg env_no_output ["music"; "a.ogg"] true leftovers_a).2
           = <[["music"; "a.ogg"] := t]>
               (delete ["music"; "a.tmp.ogg"]
                  (<[["music"; "a.ogg.bak"] := O1]> (files leftovers_a))).
Proof.
  apply (Files_store_after_success env_no_output ["music"; "a.ogg"] true leftovers_a
           ["music"; "a.tmp.ogg"] ["music"; "a.ogg.bak"] O1).
  - vm_compute. reflexivity.
  - reflexivity.
  - reflexivity.
  - vm_compute. reflexivity.
Defined.

(** X5: the original is lost only through the rename.  If a file lies at
    the temporary path after the ffmpeg run and the rename of the temporary
    file does not fail, the file is never missing afterwards: after success
    it holds that file's bytes, after any failure (of ffmpeg, of the backup
    step, of the removal) it still holds the original bytes. *)
Theorem Files_original_lost_only_by_rename (E : env) (p : path) (bk : bool)
    (s : state) (temp : path) (orig t : bytes) :
  files s !! p = Some orig →
  PurePath.with_suffix p ".tmp.ogg" = Some temp →
  staged FixOggFiles E p orig s = Some t →
  rename_fails (io E p) = false →
  (Files.reencode_ogg E p bk s).1 = Ok true
  ∧ files (Files.reencode_ogg E p bk s).2 !! p = Some t
  ∨ (Files.reencode_ogg E p bk s).1 = Ok false
    ∧ files (Files.reencode_ogg E p bk s).2 !! p = Some orig.
Proof.
  intros Hp Ht Hout Hren.
  pose proof (proj1 (PathFacts.with_suffix_Some _ _ _ Ht)) as Hnm.
  destruct (sibling_paths p Hnm) as (t' & backup & Ht' & Hb & Htp & Hbp & Htb).
  rewrite Ht in Ht'. injection Ht' as <-.
  assert (p ≠ temp) by congruence. assert (p ≠ backup) by congruence.
  assert (backup ≠ temp) by congruence.
  unfold staged in Hout. rewrite Ht in Hout.
  match goal with |- (?m ?st).1 = _ ∧ _ ∨ _ =>
    cut (wp m st (fun r s' => r = Ok true ∧ files s' !! p = Some t
                              ∨ r = Ok false ∧ files s' !! p = Some orig));
    [exact id|] end.
  files_exec E p orig temp Hp Ht Hb. fold m1 in Hout. clearbody m1.
  destruct (Z.eqb_spec (returncode (ffmpeg_encode E p orig)) 0) as [Hrc|Hrc]; cbn [negb].
  all: repeat wp_step.
  all: norm_goal; first [ left; split; [reflexivity | congruence]
                        | right; split; [reflexivity | congruence] ].
Qed.

Lemma Files_original_lost_only_by_rename_witness :
  (Files.reencode_ogg env_backup_refused ["music"; "a.ogg"] true music).1 = Ok true
  ∧ files (Files.reencode_ogg env_backup_refused ["music"; "a.ogg"] true music).2
      !! ["music"; "a.ogg"] = Some T1
  ∨ (Files.reencode_ogg env_backup_refused ["music"; "a.ogg"] true music).1 = Ok false
    ∧ files (Files.reencode_ogg env_backup_refused ["music"; "a.ogg"] true music).2
        !! ["music"; "a.ogg"] = Some O1.
Proof.
  apply (Files_original_lost_only_by_rename env_backup_refused ["music"; "a.ogg"] true
           music ["music"; "a.tmp.ogg"] O1 T1).
  - vm_compute. reflexivity.
  - reflexivity.
  - vm_compute. reflexivity.
  - reflexivity.
Defined.

(** X6: a failed backup copy costs the older backup.  Backup requested, an
    older backup is there, ffmpeg succeeded, the older backup is removed
    without fault, and then the copy of the original cannot open its
    destination: the run returns False with the original in place, but the
    older backup is gone and no new one exists. *)
Theorem Files_failed_copy_loses_old_backup (E : env) (p : path) (s : state)
    (temp backup : path) (orig old : bytes) :
  files s !! p = Some orig →
  PurePath.with_suffix p ".tmp.ogg" = Some temp →
  PurePath.with_suffix p ".ogg.bak" = Some backup →
  files s !! backup = Some old →
  returncode (ffmpeg_encode E p orig) = 0%Z →
  backup_unlink_fails (io E p) = false →
  backup_copy (io E p) = CopyRefused →
  (Files.reencode_ogg E p true s).1 = Ok false
  ∧ files (Files.reencode_ogg E p true s).2 !! p = Some orig
  ∧ files (Files.reencode_ogg E p true s).2 !! backup = None.
Proof.
  intros Hp Ht Hb Hold Hrc Hun Hcp.
  destruct (siblings_distinct p temp backup Ht Hb) as (Htp & Hbp & Htb).
  assert (p ≠ temp) by congruence. assert (p ≠ backup) by congruence.
  assert (backup ≠ temp) by congruence.
  match goal with |- (?m ?st).1 = _ ∧ _ =>
    cut (wp m st (fun r s' => r = Ok false ∧ files s' !! p = Some orig
                              ∧ files s' !! backup = None));
    [exact id|] end.
  files_exec E p orig temp Hp Ht Hb.
  rewrite Hrc. cbn [Z.eqb negb].
  assert (Hm1b : m1 !! backup = Some old) by (rewrite Hm1q by congruence; exact Hold).
  clearbody m1.
  repeat wp_step.
  all: norm_goal; repeat split; congruence.
Qed.

Lemma Files_failed_copy_loses_old_backup_witness :
  (Files.reencode_ogg env_backup_refused ["music"; "a.ogg"] true rerun).1 = Ok false
  ∧ files (Files.reencode_ogg env_backup_refused ["music"; "a.ogg"] true rerun).2
      !! ["music"; "a.ogg"] = Some O1
  ∧ files (Files.reencode_ogg env_backup_refused ["music"; "a.ogg"] true rerun).2
      !! ["music"; "a.ogg.bak"] = None.
Proof.
  apply (Files_failed_copy_loses_old_backup env_backup_refused ["music"; "a.ogg"] rerun
           ["music"; "a.tmp.ogg"] ["music"; "a.ogg.bak"] O1 OLD).
  - vm_compute. reflexivity.
  - reflexivity.
  - reflexivity.
  - vm_compute. reflexivity.
  - reflexivity.
  - reflexivity.
  - reflexivity.
Defined.

(** X7: a second run overwrites the backup.  When the single-stage
    procedure, with backup, succeeds twice in a row on the same file, the
    backup path ends up with what the first run put at the file: the bytes
    the file had before the first run are no longer kept there. *)
Theorem Files_second_run_overwrites_backup (E1 E2 : env) (p backup : path)
    (s : state) (orig : bytes) :
  files s !! p = Some orig →
  PurePath.with_suffix p ".ogg.bak" = Some backup →
  let run1 := Files.reencode_ogg E1 p true s in
  let run2 := Files.reencode_ogg E2 p true run1.2 in
  run1.1 = Ok true → run2.1 = Ok true →
  ∃ t1, staged FixOggFiles E1 p orig s = Some t1
        ∧ files run1.2 !! p = Some t1
        ∧ files run2.2 !! backup = Some t1.
Proof.
  intros Hp Hb run1 run2 H1 H2. subst run2 run1.
  pose proof (proj1 (PathFacts.with_suffix_Some _ _ _ Hb)) as Hnm.
  destruct (run_reencode_cases_files E1 p true s orig Hnm Hp)
    as (temp & backup' & b & s1 & _ & Hb' & Heq & _ & _ & Hcases).
  rewrite Hb in Hb'. injection Hb' as <-.
  rewrite Heq in *. simpl in *. injection H1 as ->.
  destruct Hcases as [[_ ?] | (_ & _ & [(_ & [t1 Hout] & Hnew) | [? _]])];
    try discriminate.
  rewrite Hout in Hnew. exists t1. split; [exact Hout|]. split; [exact Hnew|].
  destruct (run_reencode_cases_files E2 p true s1 t1 Hnm Hnew)
    as (temp2 & backup2 & b2 & s2 & _ & Hb2 & Heq2 & _ & _ & Hcases2).
  rewrite Hb in Hb2. injection Hb2 as <-.
  rewrite Heq2 in *. simpl in *. injection H2 as ->.
  destruct Hcases2 as [[_ ?] | (_ & Hbk & _)]; [discriminate | auto].
Qed.

Lemma Files_second_run_overwrites_backup_witness :
  let run1 := Files.reencode_ogg good_env ["music"; "a.ogg"] true music in
  let run2 := Files.reencode_ogg good_env ["music"; "a.ogg"] true run1.2 in
  ∃ t1, staged FixOggFiles good_env ["music"; "a.ogg"] O1 music = Some t1
        ∧ files run1.2 !! ["music"; "a.ogg"] = Some t1
        ∧ files run2.2 !! ["music"; "a.ogg.bak"] = Some t1.
Proof.
  intros run1 run2.
  apply (Files_second_run_overwrites_backup good_env good_env ["music"; "a.ogg"]
           ["music"; "a.ogg.bak"] music O1).
  - vm_compute. reflexivity.
  - reflexivity.
  - vm_compute. reflexivity.
  - vm_compute. reflexivity.
Defined.

(** ** The two-stage procedure, step by step *)

Lemma Xray_cases_named E p bk s backup orig :
  files s !! p = Some orig →
  PurePath.with_suffix p ".ogg.bak" = Some backup →
  ∃ b s', Xray.reencode_ogg E p bk s = (Ok b, s')
    ∧ (∀ q, q ≠ p → q ≠ backup → files s' !! q = files s !! q)
    ∧ match staged FixOggXray E p orig s with
      | None => b = false ∧ files s' = files s
      | Some new =>
          files s' !! backup
            = xray_backup bk (files s !! backup) (backup_copy (io E p)) orig
          ∧ b = (xray_replace (replace_copy (io E p)) orig new).1
          ∧ files s' !! p = Some (xray_replace (replace_copy (io E p)) orig new).2
      end.
Proof.
  intros Hp Hb.
  assert (Hbp : backup ≠ p).
  { eapply PathFacts.with_suffix_neq; [| |exact Hb]; discriminate. }
  destruct (Xray_reencode_cases E p bk s backup orig Hp Hb Hbp)
    as (b & s' & Heq & _ & _ & Hfr & Hcases).
  exists b, s'. split; [exact Heq|]. split; [exact Hfr|]. simpl.
  destruct (output (ffmpeg_decode E p orig)); [|exact Hcases]. exact Hcases.
Qed.



(** X9: an existing backup is never touched.  Whatever the tools and the
    file system do, and whether or not the file itself is there, a backup
    that exists before the two-stage procedure runs holds the same bytes
    afterwards. *)
Theorem Xray_existing_backup_is_kept (E : env) (p backup : path) (bk : bool)
    (s : state) (old : bytes) :
  PurePath.with_suffix p ".ogg.bak" = Some backup →
  files s !! backup = Some old →
  files (Xray.reencode_ogg E p bk s).2 !! backup = Some old.
Proof.
  intros Hb Hold. destruct (files s !! p) as [orig|] eqn:Hp.
  - destruct (Xray_cases_named E p bk s backup orig Hp Hb) as (b & s' & -> & _ & Hcases).
    simpl. destruct (staged FixOggXray E p orig s) as [new|].
    + destruct Hcases as (-> & _). rewrite Hold. now destruct bk.
    + destruct Hcases as [_ ->]. exact Hold.
  - now rewrite (Xray_reencode_absent E p bk s Hp).
Qed.

Lemma Xray_existing_backup_is_kept_witness :
  files (Xray.reencode_ogg good_env ["music"; "a.ogg"] true rerun).2
    !! ["music"; "a.ogg.bak"] = Some OLD.
Proof.
  apply (Xray_existing_backup_is_kept good_env ["music"; "a.ogg"] ["music"; "a.ogg.bak"]
           true rerun OLD).
  - reflexivity.
  - vm_compute. reflexivity.
Defined.

(** X10: the first backup is the one that stays.  No backup at the start,
    both programs deliver in the first run and its backup copy does not
    fail: after that run and any second run of the two-stage procedure on
    the same file, the backup path holds the bytes the file had before the
    first run. *)
Theorem Xray_first_backup_stays (E1 E2 : env) (p backup : path) (bk2 : bool)
    (s : state) (orig : bytes) :
  files s !! p = Some orig →
  PurePath.with_suffix p ".ogg.bak" = Some backup →
  files s !! backup = None →
  is_Some (staged FixOggXray E1 p orig s) →
  backup_copy (io E1 p) = CopyOk →
  let run1 := Xray.reencode_ogg E1 p true s in
  let run2 := Xray.reencode_ogg E2 p bk2 run1.2 in
  files run1.2 !! backup = Some orig ∧ files run2.2 !! backup = Some orig.
Proof.
  intros Hp Hb Hnb [new Hout] Hcp run1 run2. subst run2 run1.
  destruct (Xray_cases_named E1 p true s backup orig Hp Hb) as (b & s1 & -> & _ & Hcases).
  rewrite Hout, Hnb, Hcp in Hcases. simpl in *. destruct Hcases as (Hbak & _).
  split; [exact Hbak|].
  destruct (files s1 !! p) as [c|] eqn:Hp1.
  - destruct (Xray_cases_named E2 p bk2 s1 backup c Hp1 Hb) as (b2 & s2 & -> & _ & Hc2).
    simpl. destruct (staged FixOggXray E2 p c s1) as [new2|].
    + destruct Hc2 as (-> & _). rewrite Hbak. now destruct bk2.
    + destruct Hc2 as [_ ->]. exact Hbak.
  - now rewrite (Xray_reencode_absent E2 p bk2 s1 Hp1).
Qed.

Lemma Xray_first_backup_stays_witness :
  let run1 := Xray.reencode_ogg good_env ["music"; "a.ogg"] true music in
  let run2 := Xray.reencode_ogg env_replace_truncated ["music"; "a.ogg"] true run1.2 in
  files run1.2 !! ["music"; "a.ogg.bak"] = Some O1
  ∧ files run2.2 !! ["music"; "a.ogg.bak"] = Some O1.
Proof.
  apply (Xray_first_backup_stays good_env env_replace_truncated ["music"; "a.ogg"]
           ["music"; "a.ogg.bak"] true music O1).
  - vm_compute. reflexivity.
  - reflexivity.
  - vm_compute. reflexivity.
  - vm_compute. eauto.
  - reflexivity.
Defined.

(** X11: a run without output changes nothing.  If the decoder leaves no wav
    file, or oggenc leaves no ogg file, the two-stage procedure returns
    False and the file store is exactly as before: no backup is written
    either, because the backup step comes after both checks. *)
Theorem Xray_no_output_changes_nothing (E : env) (p : path) (bk : bool) (s : state)
    (orig : bytes) :
  files s !! p = Some orig →
  staged FixOggXray E p orig s = None →
  (Xray.reencode_ogg E p bk s).1 = Ok false
  ∧ files (Xray.reencode_ogg E p bk s).2 = files s
  ∧ dirs (Xray.reencode_ogg E p bk s).2 = dirs s.
Proof.
  intros Hp Hout. simpl in Hout.
  match goal with |- (?m ?st).1 = _ ∧ _ =>
    cut (wp m st (fun r s' => r = Ok false ∧ files s' = files s ∧ dirs s' = dirs s));
    [exact id|] end.
  unfold Xray.reencode_ogg, Xray.run_oggenc. repeat wp_step.
  apply wp_run_decode with (orig := orig); [exact Hp|]. wp_simpl.
  destruct (output (ffmpeg_decode E p orig)) as [wav|]; repeat wp_step; [|auto].
  rewrite Hout. repeat wp_step. auto.
Qed.

Lemma Xray_no_output_changes_nothing_witness :
  (Xray.reencode_ogg env_a_fails ["music"; "a.ogg"] true music).1 = Ok false
  ∧ files (Xray.reencode_ogg env_a_fails ["music"; "a.ogg"] true music).2 = files music
  ∧ dirs (Xray.reencode_ogg env_a_fails ["music"; "a.ogg"] true music).2 = dirs music.
Proof.
  apply (Xray_no_output_changes_nothing env_a_fails ["music"; "a.ogg"] true music O1).
  - vm_compute. reflexivity.
  - vm_compute. reflexivity.
Defined.

(** ** The command line *)

Lemma argv_filter_flags (flags : list string) (rest : list string) :
  Forall (eq "-r") flags →
  List.filter (fun a => negb (String.eqb a "-r")) (flags ++ rest)%list
  = List.filter (fun a => negb (String.eqb a "-r")) rest.
Proof.
  induction 1 as [|a flags <- _ IH]; [reflexivity|]. simpl. exact IH.
Qed.

(** X12: the target directory is the first argument that is not [-r].  Any
    number of [-r] may come before it, and whatever follows it is ignored:
    [-r folder], [folder -r] and [folder other] all name [folder]. *)
Theorem argv_directory_first_operand (prog : string) (flags : list string)
    (d : string) (rest : list string) :
  Forall (eq "-r") flags → d ≠ "-r" →
  argv_directory (prog :: flags ++ d :: rest) = d.
Proof.
  intros Hflags Hd. unfold argv_directory. cbn [tail].
  rewrite (argv_filter_flags flags (d :: rest) Hflags). cbn [List.filter].
  apply String.eqb_neq in Hd. now rewrite Hd.
Qed.

Lemma argv_directory_first_operand_witness :
  argv_directory ("fix_ogg_files.py" :: ["-r"; "-r"] ++ "music" :: ["-r"; "other"]) = "music".
Proof.
  apply (argv_directory_first_operand "fix_ogg_files.py" ["-r"; "-r"] "music" ["-r"; "other"]).
  - repeat constructor.
  - discriminate.
Defined.

(** X13: a directory called [-r] cannot be named.  The directory read from
    the command line is never the string [-r]; when every argument is [-r]
    (or there is none) it is the current directory ["."]. *)
Theorem argv_directory_never_flag (argv : list string) :
  argv_directory argv ≠ "-r"
  ∧ (Forall (eq "-r") (tail argv) → argv_directory argv = ".").
Proof.
  unfold argv_directory. split.
  - destruct (List.filter _ (tail argv)) as [|a l] eqn:Hf; [discriminate|].
    assert (Hin : In a (List.filter (fun a => negb (String.eqb a "-r")) (tail argv)))
      by (rewrite Hf; now left).
    apply filter_In in Hin as [_ Ha]. apply negb_true_iff, String.eqb_neq in Ha.
    exact Ha.
  - intros Hall. rewrite <- (app_nil_r (tail argv)).
    now rewrite (argv_filter_flags (tail argv) [] Hall).
Qed.

Lemma argv_directory_never_flag_witness :
  argv_directory ["fix_ogg_xray.py"; "-r"; "-r"] ≠ "-r"
  ∧ argv_directory ["fix_ogg_xray.py"; "-r"; "-r"] = ".".
Proof.
  destruct (argv_directory_never_flag ["fix_ogg_xray.py"; "-r"; "-r"]) as [H1 H2].
  split; [exact H1 | apply H2]. repeat constructor.
Defined.

Lemma main_depends_on_argv v E (a b : list string) (s : state) :
  argv_recursive a = argv_recursive b → argv_directory a = argv_directory b →
  run_main v E a s = run_main v E b s.
Proof.
  intros Hr Hd. destruct v; simpl.
  - unfold Files.main. now rewrite Hr, Hd.
  - unfold Xray.main. now rewrite Hr, Hd.
Qed.

(** X14: the place of [-r] does not matter.  With either script, [-r folder]
    and [folder -r] give the same run: the same exit status, the same
    output, the same file store. *)
Theorem main_flag_position (v : script) (E : env) (prog d : string)
    (rest : list string) (s : state) :
  d ≠ "-r" →
  run_main v E (prog :: "-r" :: d :: rest) s = run_main v E (prog :: d :: "-r" :: rest) s.
Proof.
  intros Hd. apply main_depends_on_argv.
  - unfold argv_recursive. apply bool_decide_ext.
    rewrite !elem_of_cons. tauto.
  - unfold argv_directory. cbn [tail List.filter].
    apply String.eqb_neq in Hd. rewrite Hd. reflexivity.
Qed.

Lemma main_flag_position_witness :
  run_main FixOggXray good_env ["fix_ogg_xray.py"; "-r"; "music"] library
  = run_main FixOggXray good_env ["fix_ogg_xray.py"; "music"; "-r"] library.
Proof.
  apply (main_flag_position FixOggXray good_env "fix_ogg_xray.py" "music" [] library).
  discriminate.
Defined.

(** X15: the exit status of the probe counts in one script only.  If ffmpeg
    can be started but [ffmpeg -version] ends with a non-zero status, the
    single-stage script takes ffmpeg for missing and exits with status 1,
    while the two-stage script (oggenc being startable too) takes it for
    present and runs to its normal end with status 0. *)
Theorem probe_status_counts_in_one_script (E : env) (argv : list string) (s : state)
    (rc rc' : Z) :
  probe_ffmpeg E = Exited rc → rc ≠ 0%Z →
  probe_oggenc E = Exited rc' →
  exit_status (Files.main E argv s) = 1%Z
  ∧ files (Files.main E argv s).2 = files s
  ∧ exit_status (Xray.main E argv s) = 0%Z.
Proof.
  intros Hf Hrc Ho.
  assert (HF : Files.check_ffmpeg E = false).
  { unfold Files.check_ffmpeg. rewrite Hf. destruct rc; [contradiction | |]; reflexivity. }
  assert (HX : Xray_tools_ok E = true).
  { unfold Xray_tools_ok, Xray.check_tools. now rewrite Hf, Ho. }
  destruct (Files_main_unavailable E argv s HF) as (s' & -> & _ & Hfiles).
  split; [reflexivity|]. split; [exact Hfiles|].
  rewrite (Xray_main_available E argv s HX).
  destruct (Xray_process_directory_spec E (PurePath.Path (argv_directory argv))
              (argv_recursive argv) (Xray_started argv s)) as (s2 & new & -> & _).
  reflexivity.
Qed.

Lemma probe_status_counts_in_one_script_witness :
  exit_status (Files.main env_probe_fails ["fix_ogg_files.py"; "music"] music) = 1%Z
  ∧ files (Files.main env_probe_fails ["fix_ogg_files.py"; "music"] music).2 = files music
  ∧ exit_status (Xray.main env_probe_fails ["fix_ogg_files.py"; "music"] music) = 0%Z.
Proof.
  apply (probe_status_counts_in_one_script env_probe_fails ["fix_ogg_files.py"; "music"]
           music 1 0).
  - reflexivity.
  - discriminate.
  - reflexivity.
Defined.

(** ** Discovery *)

Lemma startswith_app (sub b : string) : Str.startswith (sub +:+ b) sub = true.
Proof.
  induction sub as [|a sub IH].
  { rewrite StrFacts.app_nil. now destruct b. }
  rewrite StrFacts.app_cons. cbn [Str.startswith].
  now rewrite Ascii.eqb_refl, IH.
Qed.

Lemma contains_unfold (sub s : string) :
  Str.contains sub s
  = Str.startswith s sub
    || match s with EmptyString => false | String _ t => Str.contains sub t end.
Proof. destruct s; reflexivity. Qed.

Lemma contains_app (sub a b : string) : Str.contains sub (a +:+ (sub +:+ b)) = true.
Proof.
  induction a as [|c a IH].
  - rewrite StrFacts.app_nil, contains_unfold, startswith_app. reflexivity.
  - rewrite StrFacts.app_cons, contains_unfold, IH. apply orb_true_r.
Qed.

Lemma sapp_inv_tail (s t u : string) : s +:+ u = t +:+ u → s = t.
Proof.
  revert t. induction s as [|a s IH]; intros [|b t] H.
  - reflexivity.
  - apply (f_equal String.length) in H.
    rewrite StrFacts.app_nil, StrFacts.app_cons in H. simpl in H.
    rewrite StrFacts.length_app in H. lia.
  - apply (f_equal String.length) in H.
    rewrite StrFacts.app_nil, StrFacts.app_cons in H. simpl in H.
    rewrite StrFacts.length_app in H. lia.
  - rewrite !StrFacts.app_cons in H. injection H as -> H. f_equal. now apply IH.
Qed.

(** The name of [p.with_suffix(suf)] for a suffix of two characters or more. *)
Lemma with_suffix_name (p q : path) (suf : string) :
  (2 ≤ String.length suf)%nat →
  PurePath.with_suffix p suf = Some q →
  ∃ stem, PurePath.name q = stem +:+ suf.
Proof.
  intros Hlen [_ ->]%PathFacts.with_suffix_Some.
  destruct (PathFacts.name_with_suffix_stem (PurePath.name p)) as (stem & _ & Hws & _).
  exists stem. rewrite Hws. apply PathFacts.name_snoc.
  intros Heq. apply (f_equal String.length) in Heq.
  rewrite StrFacts.length_app in Heq. simpl in Heq. lia.
Qed.

Lemma filter_scope_children (d : path) (keep : path → bool) (l : list path) :
  List.filter keep
    (List.filter (fun p => is_child d p && fnmatch_star (PurePath.name p) ".ogg") l)
  = List.filter (is_child d)
      (List.filter keep
         (List.filter (fun p => is_below d p && fnmatch_star (PurePath.name p) ".ogg") l)).
Proof.
  induction l as [|a l IH]; [reflexivity|]. cbn [List.filter].
  destruct (is_child d a) eqn:Hc.
  - rewrite (is_child_below d a Hc). cbn [andb].
    destruct (fnmatch_star (PurePath.name a) ".ogg"); [|exact IH]. cbn [List.filter].
    destruct (keep a); [|exact IH]. cbn [List.filter]. rewrite Hc. now f_equal.
  - cbn [andb].
    destruct (is_below d a && fnmatch_star (PurePath.name a) ".ogg"); [|exact IH].
    cbn [List.filter]. destruct (keep a); [|exact IH]. cbn [List.filter].
    rewrite Hc. exact IH.
Qed.

(** X16: what [-r] adds.  The Target Set of a non-recursive run is the
    Target Set of the recursive run on the same directory, cut down to the
    files that lie directly in the directory, in the same order: [-r] adds
    files of sub-directories and neither drops nor reorders anything. *)
Theorem nonrecursive_targets_are_the_children (v : script) (d : path) (s : state) :
  targets v d false s = List.filter (is_child d) (targets v d true s).
Proof.
  destruct v; cbv [targets Files.target_set Files.discover Xray.target_set
                   Xray.discover bind glob rglob ret fst];
    apply filter_scope_children.
Qed.

Lemma targets_nil v d r s :
  (∀ p, is_Some (files s !! p) → in_scope d r p = true →
        fnmatch_star (PurePath.name p) ".ogg" = true → kept v p = false) →
  targets v d r s = [].
Proof.
  intros Hnone. destruct (targets v d r s) as [|p l] eqn:Hts; [reflexivity|].
  assert (Hin : p ∈ targets v d r s) by (rewrite Hts; left).
  apply targets_spec in Hin as (Hp & Hs & Hm & Hk).
  rewrite (Hnone p Hp Hs Hm) in Hk. discriminate.
Qed.

(** X17: nothing to do.  When the directory exists and every file in its
    scope either does not match [*.ogg] or is dropped by the script's
    filter, [process_directory] prints the one line "No .ogg files found",
    no summary, and ends with the file store as it was, without calling a
    tool. *)
Theorem nothing_found_changes_nothing (v : script) (E : env) (d : path) (r : bool)
    (s : state) :
  dir_present s d = true →
  (∀ p, is_Some (files s !! p) → in_scope d r p = true →
        fnmatch_star (PurePath.name p) ".ogg" = true → kept v p = false) →
  run_process_directory v E d r s
  = (Ok tt, State (dirs s) (files s) (out s ++ [MsgNoFiles d])%list).
Proof.
  intros Hdir Hnone. pose proof (targets_nil v d r s Hnone) as Hts.
  destruct v; simpl in *.
  - unfold Files.process_directory. unfold bind at 1, dir_exists at 1.
    rewrite Hdir. cbn [negb]. unfold bind at 1. rewrite Files_discover_run, Hts.
    reflexivity.
  - unfold Xray.process_directory. unfold bind at 1, dir_exists at 1.
    rewrite Hdir. cbn [negb]. unfold bind at 1. rewrite Xray_discover_run, Hts.
    reflexivity.
Qed.

Lemma nothing_found_changes_nothing_witness :
  run_process_directory FixOggFiles env_no_output ["music"] false archive
  = (Ok tt, State (dirs archive) (files archive)
                  (out archive ++ [MsgNoFiles ["music"]])%list).
Proof.
  apply (nothing_found_changes_nothing FixOggFiles env_no_output ["music"] false archive).
  - reflexivity.
  - intros p Hp. apply elem_of_listing in Hp. vm_compute in Hp.
    apply list_elem_of_In in Hp. simpl in Hp.
    destruct Hp as [[= <-] | [[= <-] | []]]; intros Hs; vm_compute in Hs; discriminate.
Defined.

(** X18: what a run writes is never taken for a source file.  The backup
    path [with_suffix('.ogg.bak')] of any file is outside every Target Set
    of both scripts, and the temporary path [with_suffix('.tmp.ogg')] of any
    file is outside every Target Set of the single-stage script: its name
    contains [.tmp.], which the filter of that script drops. *)
Theorem artifacts_are_never_candidates (v : script) (d : path) (r : bool) (s : state)
    (p q : path) :
  (PurePath.with_suffix p ".ogg.bak" = Some q → q ∉ targets v d r s)
  ∧ (PurePath.with_suffix p ".tmp.ogg" = Some q → q ∉ Files.target_set d r s).
Proof.
  split.
  - intros Hq (_ & _ & Hm & _)%targets_spec.
    destruct (with_suffix_name p q ".ogg.bak") as (stem & Hnm); [simpl; lia | exact Hq |].
    apply StrFacts.ogg_not_bak in Hm. rewrite Hnm in Hm.
    change (stem +:+ ".ogg.bak") with (stem +:+ (".ogg" +:+ ".bak")) in Hm.
    rewrite <- StrFacts.sapp_assoc, StrFacts.endswith_app in Hm. discriminate.
  - intros Hq (_ & _ & _ & Hk)%Files_target_spec.
    destruct (with_suffix_name p q ".tmp.ogg") as (stem & Hnm); [simpl; lia | exact Hq |].
    unfold Files.keep in Hk. rewrite Hnm in Hk.
    change (stem +:+ ".tmp.ogg") with (stem +:+ (".tmp." +:+ "ogg")) in Hk.
    rewrite contains_app in Hk. rewrite andb_false_r in Hk. discriminate.
Qed.

Lemma artifacts_are_never_candidates_witness :
  (["music"; "a.ogg.bak"] ∉ targets FixOggXray ["music"] false rerun)
  ∧ (["music"; "a.tmp.ogg"] ∉ Files.target_set ["music"] false leftovers_a).
Proof.
  split.
  - destruct (artifacts_are_never_candidates FixOggXray ["music"] false rerun
                ["music"; "a.ogg"] ["music"; "a.ogg.bak"]) as [H _].
    apply H. reflexivity.
  - destruct (artifacts_are_never_candidates FixOggFiles ["music"] false leftovers_a
                ["music"; "a.ogg"] ["music"; "a.tmp.ogg"]) as [_ H].
    apply H. reflexivity.
Defined.

(** X19: no two files share a temporary or a backup file.  For two files
    whose names end in [.ogg] and are not [.ogg] alone, equal paths
    [with_suffix(suf)] (the code uses [.tmp.ogg] and [.ogg.bak]) mean equal
    files. *)
Theorem sibling_paths_are_injective (p1 p2 q : path) (suf : string) :
  Str.endswith (PurePath.name p1) ".ogg" = true → PurePath.name p1 ≠ ".ogg" →
  Str.endswith (PurePath.name p2) ".ogg" = true → PurePath.name p2 ≠ ".ogg" →
  PurePath.with_suffix p1 suf = Some q → PurePath.with_suffix p2 suf = Some q →
  p1 = p2.
Proof.
  intros Ho1 Hn1 Ho2 Hn2 [Hne1 ->]%PathFacts.with_suffix_Some
         [Hne2 Heq]%PathFacts.with_suffix_Some.
  destruct (PathFacts.name_with_suffix_ogg _ suf Ho1 Hn1) as (st1 & Hnm1 & Hw1).
  destruct (PathFacts.name_with_suffix_ogg _ suf Ho2 Hn2) as (st2 & Hnm2 & Hw2).
  rewrite Hw1, Hw2 in Heq.
  apply app_inj_tail in Heq as [Hpar Hst]. apply sapp_inv_tail in Hst.
  rewrite (PathFacts.name_parent p1 Hne1), (PathFacts.name_parent p2 Hne2).
  rewrite Hpar, Hnm1, Hnm2, Hst. reflexivity.
Qed.

Lemma sibling_paths_are_injective_witness :
  ["music"; "a.ogg"] = ["music"; "a.ogg"].
Proof.
  apply (sibling_paths_are_injective ["music"; "a.ogg"] ["music"; "a.ogg"]
           ["music"; "a.ogg.bak"] ".ogg.bak");
    first [reflexivity | discriminate].
Defined.

(** The bound on the names is needed: the hidden file [.ogg] and the file
    [.ogg.ogg] of one directory have the same backup path and the same
    temporary path. *)
Example hidden_file_shares_its_siblings :
  PurePath.with_suffix ["music"; ".ogg"] ".ogg.bak"
  = PurePath.with_suffix ["music"; ".ogg.ogg"] ".ogg.bak"
  ∧ PurePath.with_suffix ["music"; ".ogg"] ".tmp.ogg"
    = PurePath.with_suffix ["music"; ".ogg.ogg"] ".tmp.ogg".
Proof. split; reflexivity. Qed.

(** ** What a whole run does to the file store *)

Lemma rel_path_state (d : path) (r : bool) (f : path) (s : state) :
  ∃ x, (if r
        then let* x := of_option (PurePath.relative_to f d) ValueError in ret (PurePath.str x)
        else ret (PurePath.name f)) s = (x, s).
Proof.
  destruct r; [|eexists; reflexivity].
  unfold PurePath.relative_to. destruct (bool_decide _); eexists; reflexivity.
Qed.

(** A relation between file stores that every call of the per-file
    procedure respects is respected by the loop and by
    [process_directory]. *)
Section run_files.
Variable R : gmap path bytes → gmap path bytes → Prop.
Hypothesis R_refl : ∀ m, R m m.
Hypothesis R_trans : ∀ a b c, R a b → R b c → R a c.

Lemma Files_loop_files E d r n l :
  Forall (fun f => ∀ s, R (files s) (files (Files.reencode_ogg E f true s).2)) l →
  ∀ i sc fl s, R (files s) (files (Files.loop E d r n l i sc fl s).2).
Proof.
  induction 1 as [|f l Hf Hl IH]; intros i sc fl s; [apply R_refl|].
  cbn [Files.loop]. unfold bind at 1.
  destruct (rel_path_state d r f s) as [[rel|e] ->]; [|apply R_refl].
  unfold bind at 1, print at 1. unfold bind at 1.
  match goal with |- context [Files.reencode_ogg E f true ?s0] =>
    pose proof (Hf s0) as H1;
    destruct (Files.reencode_ogg E f true s0) as [[ok|e] s1] end.
  all: cbn [snd files] in H1.
  - destruct ok.
    + unfold bind at 1, print at 1. eapply R_trans; [exact H1|].
      match goal with |- context [Files.loop E d r n l ?i ?a ?b ?s2] =>
        apply (IH i a b s2) end.
    + eapply R_trans; [exact H1 | apply IH].
  - exact H1.
Qed.

Lemma Xray_loop_files E d r n l :
  Forall (fun f => ∀ s, R (files s) (files (Xray.reencode_ogg E f true s).2)) l →
  ∀ i sc fl s, R (files s) (files (Xray.loop E d r n l i sc fl s).2).
Proof.
  induction 1 as [|f l Hf Hl IH]; intros i sc fl s; [apply R_refl|].
  cbn [Xray.loop]. unfold bind at 1.
  destruct (rel_path_state d r f s) as [[rel|e] ->]; [|apply R_refl].
  unfold bind at 1, print at 1. unfold bind at 1.
  match goal with |- context [Xray.reencode_ogg E f true ?s0] =>
    pose proof (Hf s0) as H1;
    destruct (Xray.reencode_ogg E f true s0) as [[ok|e] s1] end.
  all: cbn [snd files] in H1.
  - destruct ok.
    + unfold bind at 1, print at 1. eapply R_trans; [exact H1|].
      match goal with |- context [Xray.loop E d r n l ?i ?a ?b ?s2] =>
        apply (IH i a b s2) end.
    + eapply R_trans; [exact H1 | apply IH].
  - exact H1.
Qed.

Lemma Files_process_directory_files E d r s :
  (∀ f, f ∈ Files.target_set d r s →
        ∀ s0, R (files s0) (files (Files.reencode_ogg E f true s0).2)) →
  R (files s) (files (Files.process_directory E d r s).2).
Proof.
  intros Hcall. apply Forall_forall in Hcall.
  unfold Files.process_directory. unfold bind at 1, dir_exists at 1.
  destruct (dir_present s d); cbn [negb]; [|apply R_refl].
  unfold bind at 1. rewrite Files_discover_run.
  destruct (Files.target_set d r s) as [|f l]; [apply R_refl|].
  unfold bind at 1, print at 1. unfold bind at 1, print at 1. unfold bind at 1.
  match goal with |- context [Files.loop E d r ?n ?l 1 0 0 ?s0] =>
    pose proof (Files_loop_files E d r n l Hcall 1 0 0 s0) as HL;
    destruct (Files.loop E d r n l 1 0 0 s0) as [[c|e] s1] end.
  all: cbn [snd files] in HL.
  2: exact HL.
  unfold bind at 1, print at 1. unfold bind at 1, print at 1.
  destruct (0 <? c.1)%nat; exact HL.
Qed.

Lemma Xray_process_directory_files E d r s :
  (∀ f, f ∈ Xray.target_set d r s →
        ∀ s0, R (files s0) (files (Xray.reencode_ogg E f true s0).2)) →
  R (files s) (files (Xray.process_directory E d r s).2).
Proof.
  intros Hcall. apply Forall_forall in Hcall.
  unfold Xray.process_directory. unfold bind at 1, dir_exists at 1.
  destruct (dir_present s d); cbn [negb]; [|apply R_refl].
  unfold bind at 1. rewrite Xray_discover_run.
  destruct (Xray.target_set d r s) as [|f l]; [apply R_refl|].
  unfold bind at 1, print at 1. unfold bind at 1, print at 1. unfold bind at 1.
  match goal with |- context [Xray.loop E d r ?n ?l 1 0 0 ?s0] =>
    pose proof (Xray_loop_files E d r n l Hcall 1 0 0 s0) as HL;
    destruct (Xray.loop E d r n l 1 0 0 s0) as [[c|e] s1] end.
  all: cbn [snd files] in HL.
  2: exact HL.
  unfold bind at 1, print at 1. unfold bind at 1, print at 1.
  destruct (0 <? c.1)%nat; exact HL.
Qed.

Lemma process_directory_files v E d r s :
  (∀ f, f ∈ targets v d r s →
        ∀ s0, R (files s0) (files (run_reencode v E f true s0).2)) →
  R (files s) (files (run_process_directory v E d r s).2).
Proof.
  destruct v; [apply Files_process_directory_files | apply Xray_process_directory_files].
Qed.
End run_files.

Lemma target_named v d r s f : f ∈ targets v d r s → PurePath.name f ≠ "".
Proof. intros (_ & _ & Hm & _)%targets_spec. now apply StrFacts.ogg_nonempty. Qed.

(** One call writes nowhere but at the file, its temporary path and its
    backup path. *)
Lemma reencode_frame v E f bk s q :
  PurePath.name f ≠ "" → q ≠ f →
  PurePath.with_suffix f ".tmp.ogg" ≠ Some q →
  PurePath.with_suffix f ".ogg.bak" ≠ Some q →
  files (run_reencode v E f bk s).2 !! q = files s !! q.
Proof.
  intros Hnm Hqf Hqt Hqb.
  destruct (sibling_paths f Hnm) as (temp & backup & Ht & Hb & _).
  destruct v; simpl.
  - destruct (Files_reencode_total E f bk s Hnm) as (b & s' & -> & _ & _ & Hfr).
    apply (Hfr q temp backup Ht Hb Hqf); congruence.
  - destruct (Xray_reencode_total E f bk s) as (b & s' & -> & _ & _ & Hfr).
    apply (Hfr q backup Hb Hqf); congruence.
Qed.

(** The only file one call can create is the backup. *)
Lemma reencode_new_file v E f bk s q :
  PurePath.name f ≠ "" →
  files s !! q = None → is_Some (files (run_reencode v E f bk s).2 !! q) →
  PurePath.with_suffix f ".ogg.bak" = Some q.
Proof.
  intros Hnm Hq Hq'.
  destruct (sibling_paths f Hnm) as (temp & backup & Ht & Hb & H1 & H2 & H3).
  rewrite Hb. f_equal.
  destruct (decide (backup = q)) as [|Hqb]; [assumption | exfalso].
  destruct (files s !! f) as [orig|] eqn:Hf.
  2:{ destruct v; simpl in Hq';
        [rewrite (Files_reencode_absent E f bk s Hf) in Hq'
        |rewrite (Xray_reencode_absent E f bk s Hf) in Hq'];
        simpl in Hq'; rewrite Hq in Hq'; now destruct Hq'. }
  assert (Hqf : q ≠ f) by congruence.
  destruct v; simpl in Hq'.
  - destruct (Files_reencode_cases E f bk s temp backup orig Hf Ht Hb H1 H2 H3)
      as (b & s' & Heq & _ & _ & Hfr & Htemp & _).
    rewrite Heq in Hq'. simpl in Hq'.
    destruct (decide (q = temp)) as [->|Hqt].
    + rewrite Htemp in Hq'. now destruct Hq'.
    + rewrite (Hfr q Hqf Hqt) in Hq' by congruence. rewrite Hq in Hq'. now destruct Hq'.
  - destruct (Xray_reencode_total E f bk s) as (b & s' & Heq & _ & _ & Hfr).
    rewrite Heq in Hq'. simpl in Hq'.
    rewrite (Hfr q backup Hb Hqf) in Hq' by congruence. rewrite Hq in Hq'.
    now destruct Hq'.
Qed.

(** One call of the two-stage procedure on a [*.ogg] file leaves every
    [.bak] file as it is. *)
Lemma Xray_reencode_keeps_bak E f bk s q old :
  Str.endswith (PurePath.name f) ".ogg" = true →
  Str.endswith (PurePath.name q) ".bak" = true →
  files s !! q = Some old →
  files (Xray.reencode_ogg E f bk s).2 !! q = Some old.
Proof.
  intros Hogg Hbak Hq.
  assert (Hqf : q ≠ f).
  { intros ->. apply StrFacts.ogg_not_bak in Hogg. congruence. }
  destruct (files s !! f) as [orig|] eqn:Hf.
  2:{ now rewrite (Xray_reencode_absent E f bk s Hf). }
  pose proof (StrFacts.ogg_nonempty _ Hogg) as Hnm.
  destruct (sibling_paths f Hnm) as (temp & backup & _ & Hb & _ & Hbf & _).
  destruct (Xray_reencode_cases E f bk s backup orig Hf Hb Hbf)
    as (b & s' & -> & _ & _ & Hfr & Hcases).
  cbn [snd]. destruct (decide (q = backup)) as [->|Hqb].
  2:{ now rewrite (Hfr q Hqf Hqb). }
  destruct (output (ffmpeg_decode E f orig)) as [wav|].
  2:{ destruct Hcases as [_ ->]. exact Hq. }
  destruct (output (oggenc_encode E f wav)) as [new|].
  2:{ destruct Hcases as [_ ->]. exact Hq. }
  destruct Hcases as (-> & _). rewrite Hq. now destruct bk.
Qed.

(** X20: a run writes only where its Target Set points.  A path that is no
    member of the Target Set and neither the temporary path
    ([with_suffix('.tmp.ogg')]) nor the backup path
    ([with_suffix('.ogg.bak')]) of a member holds after [process_directory]
    what it held before, whatever the tools, the faults and the other files
    do: files that do not match, files outside the directory and, without
    [-r], files in sub-directories are left alone. *)
Theorem run_writes_only_at_its_targets (v : script) (E : env) (d : path) (r : bool)
    (s : state) (q : path) :
  (∀ f, f ∈ targets v d r s →
        q ≠ f ∧ PurePath.with_suffix f ".tmp.ogg" ≠ Some q
        ∧ PurePath.with_suffix f ".ogg.bak" ≠ Some q) →
  files (run_process_directory v E d r s).2 !! q = files s !! q.
Proof.
  intros Hq.
  apply (process_directory_files (fun m m' => m' !! q = m !! q)); [reflexivity | congruence |].
  intros f Hf s0. destruct (Hq f Hf) as (H1 & H2 & H3).
  apply reencode_frame; eauto using target_named.
Qed.

Lemma run_writes_only_at_its_targets_witness :
  files (run_process_directory FixOggFiles env_rename_fails ["music"] false library).2
    !! ["music"; "live"; "d.ogg"]
  = files library !! ["music"; "live"; "d.ogg"].
Proof.
  apply (run_writes_only_at_its_targets FixOggFiles env_rename_fails ["music"] false
           library ["music"; "live"; "d.ogg"]).
  intros f Hf. vm_compute in Hf. apply list_elem_of_In in Hf. simpl in Hf.
  destruct Hf as [<- | []]. repeat split; vm_compute; discriminate.
Defined.

(** X21: a run creates backups and nothing else.  Every file that is in the
    store after [process_directory] and was not there before is the backup
    ([with_suffix('.ogg.bak')]) of a member of the Target Set; no temporary
    file and no other file is left behind. *)
Theorem run_creates_only_backups (v : script) (E : env) (d : path) (r : bool)
    (s : state) (q : path) :
  files s !! q = None →
  is_Some (files (run_process_directory v E d r s).2 !! q) →
  ∃ f, f ∈ targets v d r s ∧ PurePath.with_suffix f ".ogg.bak" = Some q.
Proof.
  set (T := targets v d r s).
  set (R := fun m m' : gmap path bytes =>
              ∀ q, m !! q = None → is_Some (m' !! q) →
                   ∃ f, f ∈ T ∧ PurePath.with_suffix f ".ogg.bak" = Some q).
  assert (HR : R (files s) (files (run_process_directory v E d r s).2)).
  { apply (process_directory_files R).
    - intros m q' Hn Hs. rewrite Hn in Hs. now destruct Hs.
    - intros a b c Hab Hbc q' Hn Hs.
      destruct (b !! q') eqn:Hb; [apply Hab; eauto | now apply Hbc].
    - intros f Hf s0 q' Hn Hs. exists f. split; [exact Hf|].
      eapply reencode_new_file; eauto using target_named. }
  intros Hq Hq'. exact (HR q Hq Hq').
Qed.

Lemma run_creates_only_backups_witness :
  ∃ f, f ∈ targets FixOggXray ["music"] false music
       ∧ PurePath.with_suffix f ".ogg.bak" = Some ["music"; "b.ogg.bak"].
Proof.
  apply (run_creates_only_backups FixOggXray good_env ["music"] false music
           ["music"; "b.ogg.bak"]).
  - reflexivity.
  - vm_compute. eauto.
Defined.

(** X22: a run adds nothing to the work of the next one.  Every member of
    the Target Set computed after [process_directory] was a member of the
    Target Set of that run: backups are not candidates, and nothing else is
    created.  (The converse fails: a file lost in a failed replace step is
    gone from the next Target Set.) *)
Theorem next_target_set_is_no_larger (v : script) (E : env) (d : path) (r : bool)
    (s : state) (q : path) :
  q ∈ targets v d r (run_process_directory v E d r s).2 →
  q ∈ targets v d r s.
Proof.
  intros (Hq' & Hs & Hm & Hk)%targets_spec. apply targets_spec.
  split; [|auto]. destruct (files s !! q) as [b|] eqn:Hq; [eauto | exfalso].
  set (T := targets v d r s).
  set (R := fun m m' : gmap path bytes =>
              ∀ q, m !! q = None → is_Some (m' !! q) →
                   ∃ f, f ∈ T ∧ PurePath.with_suffix f ".ogg.bak" = Some q).
  assert (HR : R (files s) (files (run_process_directory v E d r s).2)).
  { apply (process_directory_files R).
    - intros m q' Hn Hs'. rewrite Hn in Hs'. now destruct Hs'.
    - intros a b' c Hab Hbc q' Hn Hs'.
      destruct (b' !! q') eqn:Hb; [apply Hab; eauto | now apply Hbc].
    - intros f Hf s0 q' Hn Hs'. exists f. split; [exact Hf|].
      eapply reencode_new_file; eauto using target_named. }
  destruct (HR q Hq Hq') as (f & _ & Hb).
  destruct (with_suffix_name f q ".ogg.bak") as (stem & Hnm); [simpl; lia | exact Hb |].
  apply StrFacts.ogg_not_bak in Hm. rewrite Hnm in Hm.
  change (stem +:+ ".ogg.bak") with (stem +:+ (".ogg" +:+ ".bak")) in Hm.
  rewrite <- StrFacts.sapp_assoc, StrFacts.endswith_app in Hm. discriminate.
Qed.

Lemma next_target_set_is_no_larger_witness :
  ["music"; "a.ogg"] ∈ targets FixOggFiles ["music"] false music.
Proof.
  apply (next_target_set_is_no_larger FixOggFiles good_env ["music"] false music
           ["music"; "a.ogg"]).
  vm_compute. apply list_elem_of_In. simpl. auto.
Defined.

(** X23: the two-stage script never touches a [.bak] file.  Whatever file
    has a name ending in [.bak] before [process_directory] of
    [fix_ogg_xray.py] is there afterwards with the same content: an
    existing backup is neither refreshed nor removed, in this run or any
    later one. *)
Theorem Xray_run_keeps_bak_files (E : env) (d : path) (r : bool) (s : state)
    (q : path) (old : bytes) :
  Str.endswith (PurePath.name q) ".bak" = true →
  files s !! q = Some old →
  files (Xray.process_directory E d r s).2 !! q = Some old.
Proof.
  intros Hbak Hq.
  apply (Xray_process_directory_files
           (fun m m' => m !! q = Some old → m' !! q = Some old)); [auto | auto | | exact Hq].
  intros f (_ & _ & Hm & _)%Xray_target_spec s0 Hq0.
  now apply Xray_reencode_keeps_bak.
Qed.

Lemma Xray_run_keeps_bak_files_witness :
  files (Xray.process_directory good_env ["music"] false rerun).2 !! ["music"; "a.ogg.bak"]
  = Some OLD.
Proof.
  apply (Xray_run_keeps_bak_files good_env ["music"] false rerun ["music"; "a.ogg.bak"] OLD);
    reflexivity.
Defined.

(** ** What a whole run prints *)

Lemma headings_app (a b : list line) : headings (a ++ b)%list = (headings a ++ headings b)%list.
Proof. apply omap_app. Qed.

Lemma summaries_app (a b : list line) :
  summaries (a ++ b)%list = (summaries a ++ summaries b)%list.
Proof. apply omap_app. Qed.

Lemma found_lines_app (a b : list line) :
  found_lines (a ++ b)%list = (found_lines a ++ found_lines b)%list.
Proof. apply omap_app. Qed.

Lemma ok_lines_app (a b : list line) : ok_lines (a ++ b)%list = ok_lines a + ok_lines b.
Proof. unfold ok_lines. now rewrite List.filter_app, List.length_app. Qed.

(** The error reports of the per-file procedure are no headings, no
    "[OK]" lines and no summaries. *)
Lemma per_file_trace (new : list line) :
  forallb per_file_msg new = true →
  headings new = [] ∧ ok_lines new = 0 ∧ summaries new = [] ∧ found_lines new = [].
Proof.
  induction new as [|l new IH]; [repeat split|].
  cbn [forallb]. intros [Hl Hn]%andb_true_iff.
  destruct (IH Hn) as (H1 & H2 & H3 & H4).
  unfold ok_lines in *. destruct l; try discriminate; cbn; auto.
Qed.

Lemma loop_trace_cons d r n f l i sc fl sc' fl' (ok : bool) (new1 new' : list line) :
  forallb per_file_msg new1 = true →
  loop_trace d r n l (S i) (if ok then S sc else sc) (if ok then fl else S fl) sc' fl' new' →
  loop_trace d r n (f :: l) i sc fl sc' fl'
    ([MsgProcessing i n (rel_path d r f)] ++ new1
     ++ (if ok then [MsgOk] else []) ++ new')%list.
Proof.
  intros (H1 & H2 & H3 & H4)%per_file_trace [Hh Hs Ht [Hsm Hfd]].
  split.
  - rewrite !headings_app, H1, Hh. destruct ok; reflexivity.
  - rewrite !ok_lines_app, H2. destruct ok; cbn; lia.
  - destruct ok; cbn [length]; lia.
  - rewrite !summaries_app, !found_lines_app, H3, H4, Hsm, Hfd. destruct ok; split; reflexivity.
Qed.

Lemma Files_loop_trace E d r n l :
  Forall (loopable d) l → ∀ i sc fl s,
  ∃ sc' fl' s' new, Files.loop E d r n l i sc fl s = (Ok (sc', fl'), s')
                    ∧ out s' = (out s ++ new)%list
                    ∧ loop_trace d r n l i sc fl sc' fl' new.
Proof.
  induction 1 as [|f l [Hnm Hpre] Hl IH]; intros i sc fl s.
  - exists sc, fl, s, []. split; [reflexivity|]. split; [now rewrite app_nil_r|].
    split; cbn; auto with lia.
  - cbn [Files.loop]. unfold bind at 1. rewrite (rel_path_run d r f s Hpre).
    unfold bind at 1, print at 1.
    set (s0 := State (dirs s) (files s) (out s ++ [MsgProcessing i n (rel_path d r f)])%list).
    unfold bind at 1.
    destruct (Files_reencode_total E f true s0 Hnm) as (ok & s1 & -> & _ & (new1 & Ho1 & Hn1) & _).
    destruct ok.
    + unfold bind at 1, print at 1.
      set (s2 := State (dirs s1) (files s1) (out s1 ++ [MsgOk])%list).
      destruct (IH (S i) (S sc) fl s2) as (sc' & fl' & s' & new' & -> & Ho & Htr).
      exists sc', fl', s'. eexists. split; [reflexivity|].
      split; [|exact (loop_trace_cons d r n f l i sc fl sc' fl' true new1 new' Hn1 Htr)].
      rewrite Ho. cbn [s2 out]. rewrite Ho1. cbn [s0 out].
      now rewrite <- !List.app_assoc.
    + destruct (IH (S i) sc (S fl) s1) as (sc' & fl' & s' & new' & -> & Ho & Htr).
      exists sc', fl', s'. eexists. split; [reflexivity|].
      split; [|exact (loop_trace_cons d r n f l i sc fl sc' fl' false new1 new' Hn1 Htr)].
      rewrite Ho, Ho1. cbn [s0 out]. now rewrite <- !List.app_assoc.
Qed.

Lemma Xray_loop_trace E d r n l :
  Forall (loopable d) l → ∀ i sc fl s,
  ∃ sc' fl' s' new, Xray.loop E d r n l i sc fl s = (Ok (sc', fl'), s')
                    ∧ out s' = (out s ++ new)%list
                    ∧ loop_trace d r n l i sc fl sc' fl' new.
Proof.
  induction 1 as [|f l [Hnm Hpre] Hl IH]; intros i sc fl s.
  - exists sc, fl, s, []. split; [reflexivity|]. split; [now rewrite app_nil_r|].
    split; cbn; auto with lia.
  - cbn [Xray.loop]. unfold bind at 1. rewrite (rel_path_run d r f s Hpre).
    unfold bind at 1, print at 1.
    set (s0 := State (dirs s) (files s) (out s ++ [MsgProcessing i n (rel_path d r f)])%list).
    unfold bind at 1.
    destruct (Xray_reencode_total E f true s0) as (ok & s1 & -> & _ & (new1 & Ho1 & Hn1) & _).
    destruct ok.
    + unfold bind at 1, print at 1.
      set (s2 := State (dirs s1) (files s1) (out s1 ++ [MsgOk])%list).
      destruct (IH (S i) (S sc) fl s2) as (sc' & fl' & s' & new' & -> & Ho & Htr).
      exists sc', fl', s'. eexists. split; [reflexivity|].
      split; [|exact (loop_trace_cons d r n f l i sc fl sc' fl' true new1 new' Hn1 Htr)].
      rewrite Ho. cbn [s2 out]. rewrite Ho1. cbn [s0 out].
      now rewrite <- !List.app_assoc.
    + destruct (IH (S i) sc (S fl) s1) as (sc' & fl' & s' & new' & -> & Ho & Htr).
      exists sc', fl', s'. eexists. split; [reflexivity|].
      split; [|exact (loop_trace_cons d r n f l i sc fl sc' fl' false new1 new' Hn1 Htr)].
      rewrite Ho, Ho1. cbn [s0 out]. now rewrite <- !List.app_assoc.
Qed.

(** What [process_directory] prints around the loop adds one "Found" line
    and one summary to the trace of the loop. *)
Lemma report_trace d r n (l : list path) sc fl (mid tail : list line) :
  loop_trace d r n l 1 0 0 sc fl mid →
  headings tail = [] → ok_lines tail = 0 → summaries tail = [] → found_lines tail = [] →
  let new := ([MsgFound n; Rule "-"] ++ mid ++ [Rule "-"; MsgComplete sc fl] ++ tail)%list in
  found_lines new = [n]
  ∧ headings new = zip_with (fun k f => (k, n, rel_path d r f)) (seq 1 (length l)) l
  ∧ summaries new = [(ok_lines new, length l - ok_lines new)]
  ∧ (ok_lines new ≤ length l)%nat.
Proof.
  intros [Hh Hs Ht [Hsm Hfd]] T1 T2 T3 T4 new. subst new.
  rewrite !found_lines_app, !headings_app, !summaries_app, !ok_lines_app.
  rewrite Hh, Hsm, Hfd, T1, T2, T3, T4. cbn.
  rewrite app_nil_r. replace (ok_lines mid + 0) with sc by lia.
  replace (length l - sc) with fl by lia.
  repeat split; lia.
Qed.

(** X24: the counters of a run.  When the directory exists and something is
    found, [process_directory] prints one "Found n" line with [n] the size
    of the Target Set, the headings [i/n] numbered 1, 2, ..., n in the order
    of the Target Set, and one summary "Success: a, Failed: b" in which [a]
    is the number of "[OK]" lines printed and [a + b = n]. *)
Theorem run_counts_what_it_prints (v : script) (E : env) (d : path) (r : bool)
    (s : state) :
  dir_present s d = true → targets v d r s ≠ [] →
  ∃ new,
    out (run_process_directory v E d r s).2 = (out s ++ new)%list
    ∧ found_lines new = [length (targets v d r s)]
    ∧ headings new
      = zip_with (fun k f => (k, length (targets v d r s), rel_path d r f))
                 (seq 1 (length (targets v d r s))) (targets v d r s)
    ∧ summaries new = [(ok_lines new, length (targets v d r s) - ok_lines new)]
    ∧ (ok_lines new ≤ length (targets v d r s))%nat.
Proof.
  intros Hdir Hne. destruct v; simpl in *.
  - unfold Files.process_directory. unfold bind at 1, dir_exists at 1.
    rewrite Hdir. cbn [negb]. unfold bind at 1. rewrite Files_discover_run.
    pose proof (Files_target_loopable d r s) as Hloop.
    destruct (Files.target_set d r s) as [|f l]; [contradiction|].
    set (T := f :: l) in *.
    change (match T with [] => print (MsgNoFiles d) >> ret tt | _ :: _ => ?k end) with k.
    unfold bind at 1, print at 1. unfold bind at 1, print at 1. cbn [dirs files out].
    unfold bind at 1.
    match goal with |- context [Files.loop E d r ?n T 1 0 0 ?s0] =>
      destruct (Files_loop_trace E d r n T Hloop 1 0 0 s0)
        as (sc & fl & s1 & mid & -> & Ho & Htr) end.
    cbn [out] in Ho. cbn [fst snd].
    unfold bind at 1, print at 1. unfold bind at 1, print at 1. cbn [dirs files out].
    destruct (0 <? sc)%nat; cbn [when].
    + unfold bind at 1, print at 1. unfold print at 1. cbn [dirs files out snd].
      eexists. split.
      { rewrite Ho. rewrite <- !List.app_assoc. reflexivity. }
      apply (report_trace d r (length T) T sc fl mid
               [Text "Backup files created with .ogg.bak extension";
                Text "Delete them manually after confirming everything works."] Htr);
        reflexivity.
    + cbn [ret snd out]. eexists. split.
      { rewrite Ho. rewrite <- !List.app_assoc. reflexivity. }
      apply (report_trace d r (length T) T sc fl mid [] Htr); reflexivity.
  - unfold Xray.process_directory. unfold bind at 1, dir_exists at 1.
    rewrite Hdir. cbn [negb]. unfold bind at 1. rewrite Xray_discover_run.
    pose proof (Xray_target_loopable d r s) as Hloop.
    destruct (Xray.target_set d r s) as [|f l]; [contradiction|].
    set (T := f :: l) in *.
    change (match T with [] => print (MsgNoFiles d) >> ret tt | _ :: _ => ?k end) with k.
    unfold bind at 1, print at 1. unfold bind at 1, print at 1. cbn [dirs files out].
    unfold bind at 1.
    match goal with |- context [Xray.loop E d r ?n T 1 0 0 ?s0] =>
      destruct (Xray_loop_trace E d r n T Hloop 1 0 0 s0)
        as (sc & fl & s1 & mid & -> & Ho & Htr) end.
    cbn [out] in Ho. cbn [fst snd].
    unfold bind at 1, print at 1. unfold bind at 1, print at 1. cbn [dirs files out].
    destruct (0 <? sc)%nat; cbn [when].
    + unfold print at 1. cbn [dirs files out snd].
      eexists. split.
      { rewrite Ho. rewrite <- !List.app_assoc. reflexivity. }
      apply (report_trace d r (length T) T sc fl mid
               [Text "Backups saved as .ogg.bak files"] Htr);
        reflexivity.
    + cbn [ret snd out]. eexists. split.
      { rewrite Ho. rewrite <- !List.app_assoc. reflexivity. }
      apply (report_trace d r (length T) T sc fl mid [] Htr); reflexivity.
Qed.

Lemma run_counts_what_it_prints_witness :
  ∃ new,
    out (run_process_directory FixOggFiles env_a_fails ["music"] false music).2
    = (out music ++ new)%list
    ∧ found_lines new = [length (targets FixOggFiles ["music"] false music)]
    ∧ headings new
      = zip_with (fun k f => (k, length (targets FixOggFiles ["music"] false music),
                              rel_path ["music"] false f))
                 (seq 1 (length (targets FixOggFiles ["music"] false music)))
                 (targets FixOggFiles ["music"] false music)
    ∧ summaries new
      = [(ok_lines new, length (targets FixOggFiles ["music"] false music) - ok_lines new)]
    ∧ (ok_lines new ≤ length (targets FixOggFiles ["music"] false music))%nat.
Proof.
  apply (run_counts_what_it_prints FixOggFiles env_a_fails ["music"] false music).
  - reflexivity.
  - vm_compute. discriminate.
Defined.
